(** * BlogNewsLetter: newsletter subscription workflow

    A shallow embedding of [storage.py], [flask_server.py] and
    [lambda_function.py], and the properties of the subscription workflow
    that the specification states about them.

    Conventions of the embedding.
    - A Python [str] is a [string]; a character is a code point in the
      range U+0000..U+00FF, on which [str.lower], [str.strip] and the
      [re] character classes are modelled exactly as CPython defines them.
    - A Python value that can arrive in a request is a [pyval].
    - A Python call that may raise is an [outcome]: [Return v] or
      [Raise e]; [try]/[except] is a [match] on it.
    - The module-level [storage] object is threaded explicitly, together
      with a log of the storage methods called on it. *)

From Stdlib Require Import ZArith Lia Bool Ascii String.
From stdpp Require Import gmap strings list fin_maps pretty.

Open Scope string_scope.
Set Warnings "-register-all".

(** ** Python strings *)

Module Str.

Definition chars (s : string) : list ascii := list_ascii_of_string s.
Definition of_chars (l : list ascii) : string := string_of_list_ascii l.

Definition code (c : ascii) : N := N_of_ascii c.

Definition in_range (lo hi : N) (c : ascii) : bool :=
  ((lo <=? code c) && (code c <=? hi))%N.

(** [str.isspace] on one character: U+0009..U+000D, U+001C..U+0020,
    U+0085 and U+00A0. *)
Definition isspace (c : ascii) : bool :=
  in_range 9 13 c || in_range 28 32 c
  || (code c =? 133)%N || (code c =? 160)%N.

(** Upper-case letters with a lower-case partner 32 code points up:
    [A-Z], and U+00C0..U+00DE without the multiplication sign U+00D7. *)
Definition isupper (c : ascii) : bool :=
  in_range 65 90 c
  || (in_range 192 222 c && negb (code c =? 215)%N).

Definition lower_char (c : ascii) : ascii :=
  if isupper c then ascii_of_N (code c + 32) else c.

(** [s.lower()] *)
Definition lower (s : string) : string :=
  of_chars (map lower_char (chars s)).

Fixpoint lstrip_chars (l : list ascii) : list ascii :=
  match l with
  | c :: l' => if isspace c then lstrip_chars l' else l
  | [] => []
  end.

Definition rstrip_chars (l : list ascii) : list ascii :=
  rev (lstrip_chars (rev l)).

(** [s.strip()] *)
Definition strip (s : string) : string :=
  of_chars (rstrip_chars (lstrip_chars (chars s))).

Fixpoint startswith_chars (p l : list ascii) : bool :=
  match p, l with
  | [], _ => true
  | a :: p', b :: l' => bool_decide (a = b) && startswith_chars p' l'
  | _ :: _, [] => false
  end.

Fixpoint contains_chars (p l : list ascii) : bool :=
  startswith_chars p l ||
  match l with
  | _ :: l' => contains_chars p l'
  | [] => false
  end.

(** [sub in s] for two strings *)
Definition contains (sub s : string) : bool :=
  contains_chars (chars sub) (chars s).

End Str.

(** ** The fragment of [re] used by [is_valid_email] *)

Module Re.

(** One member of a bracket expression: a range [lo-hi] or a single
    character. *)
Inductive member : Type :=
| Range (lo hi : ascii)
| Single (c : ascii).

Inductive atom : Type :=
| Class (ms : list member)
| Literal (c : ascii).

(** Pattern nodes, in sequence: [^], [$], one atom, or a greedy
    repetition [a{min,}] ([a+] is [a{1,}]). *)
Inductive node : Type :=
| Bol
| Eol
| One (a : atom)
| AtLeast (min : nat) (a : atom).

Definition member_matches (m : member) (c : ascii) : bool :=
  match m with
  | Range lo hi => Str.in_range (Str.code lo) (Str.code hi) c
  | Single d => bool_decide (c = d)
  end.

Definition atom_matches (a : atom) (c : ascii) : bool :=
  match a with
  | Class ms => existsb (fun m => member_matches m c) ms
  | Literal d => bool_decide (c = d)
  end.

(** [$] without [re.MULTILINE]: at the end of the string, or just
    before a newline that is the last character. *)
Definition at_end (rest : list ascii) : bool :=
  match rest with
  | [] => true
  | [c] => bool_decide (c = "010"%char)
  | _ => false
  end.

(** Greedy repetition with backtracking: take one more character when
    the atom allows it and the rest of the pattern then matches, else
    stop here if [min] repetitions were made. *)
Fixpoint match_at_least (a : atom) (k : nat -> list ascii -> bool)
    (min : nat) (pos : nat) (rest : list ascii) : bool :=
  match rest with
  | c :: rest' =>
      (atom_matches a c && match_at_least a k (pred min) (S pos) rest')
      || ((min =? 0)%nat && k pos rest)
  | [] => (min =? 0)%nat && k pos rest
  end.

(** Does the pattern match starting at offset [pos], where [rest] is
    the input from [pos] on? *)
Fixpoint match_here (p : list node) (pos : nat) (rest : list ascii) : bool :=
  match p with
  | [] => true
  | Bol :: p' => (pos =? 0)%nat && match_here p' pos rest
  | Eol :: p' => at_end rest && match_here p' pos rest
  | One a :: p' =>
      match rest with
      | c :: rest' => atom_matches a c && match_here p' (S pos) rest'
      | [] => false
      end
  | AtLeast min a :: p' => match_at_least a (match_here p') min pos rest
  end.

(** [re.match(pattern, s) is not None]: the pattern is tried at offset
    0 only. *)
Definition matches (p : list node) (s : string) : bool :=
  match_here p 0 (Str.chars s).

End Re.

(** ** Email validator ([flask_server.py] 27-30, [lambda_function.py] 22-25) *)

Definition local_class : list Re.member :=
  [Re.Range "a" "z"; Re.Range "A" "Z"; Re.Range "0" "9";
   Re.Single "."; Re.Single "_"; Re.Single "%"; Re.Single "+"; Re.Single "-"]%char.

Definition domain_class : list Re.member :=
  [Re.Range "a" "z"; Re.Range "A" "Z"; Re.Range "0" "9";
   Re.Single "."; Re.Single "-"]%char.

Definition alpha_class : list Re.member :=
  [Re.Range "a" "z"; Re.Range "A" "Z"]%char.

(** [r'^[a-zA-Z0-9._%+-]+@[a-zA-Z0-9.-]+\.[a-zA-Z]{2,}$'] *)
Definition pattern : list Re.node :=
  [Re.Bol;
   Re.AtLeast 1 (Re.Class local_class);
   Re.One (Re.Literal "@");
   Re.AtLeast 1 (Re.Class domain_class);
   Re.One (Re.Literal ".");
   Re.AtLeast 2 (Re.Class alpha_class);
   Re.Eol]%char.

Definition is_valid_email (email : string) : bool :=
  Re.matches pattern email.

(** ** Python values and exceptions *)

(** The values a decoded JSON document or a Lambda event can be. *)
Inductive pyval : Type :=
| PNone
| PBool (b : bool)
| PInt (n : Z)
| PFloat (bits : Z)
| PStr (s : string)
| PList (l : list pyval)
| PDict (d : list (string * pyval)).

(** Exceptions, all of them subclasses of [Exception]. *)
Inductive exn : Type :=
| TypeError (msg : string)
| ValueError (msg : string)
| JSONDecodeError
| BadRequest
| OtherException (name : string).

Inductive outcome (A : Type) : Type :=
| Return (a : A)
| Raise (e : exn).
Arguments Return {A} a.
Arguments Raise {A} e.

(** [key in d] and [d.get(key)] for a dict; the first binding of a key is
    the live one. *)
Fixpoint dict_lookup (key : string) (d : list (string * pyval)) : option pyval :=
  match d with
  | [] => None
  | (k, v) :: d' => if bool_decide (k = key) then Some v else dict_lookup key d'
  end.

Definition dict_contains (key : string) (d : list (string * pyval)) : bool :=
  match dict_lookup key d with Some _ => true | None => false end.

Definition dict_get (key : string) (d : list (string * pyval)) : pyval :=
  match dict_lookup key d with Some v => v | None => PNone end.

Definition is_str_eq (key : string) (v : pyval) : bool :=
  match v with
  | PStr s => bool_decide (s = key)
  | _ => false
  end.

(** [key in container], for a string [key]: key membership in a dict,
    substring test in a string, element membership in a list, and a
    [TypeError] for a value that is not a container. *)
Definition py_contains (key : string) (container : pyval) : outcome bool :=
  match container with
  | PDict d => Return (dict_contains key d)
  | PStr s => Return (Str.contains key s)
  | PList l => Return (existsb (is_str_eq key) l)
  | PNone | PBool _ | PInt _ | PFloat _ =>
      Raise (TypeError "argument is not iterable")
  end.

(** [container[key]], for a string [key]. *)
Definition py_getitem (key : string) (container : pyval) : outcome pyval :=
  match container with
  | PDict d =>
      match dict_lookup key d with
      | Some v => Return v
      | None => Raise (OtherException "KeyError")
      end
  | PStr _ => Raise (TypeError "string indices must be integers")
  | PList _ => Raise (TypeError "list indices must be integers or slices")
  | PNone | PBool _ | PInt _ | PFloat _ =>
      Raise (TypeError "object is not subscriptable")
  end.

(** ** Storage ([storage.py]) *)

(** What one [add_subscriber] call draws from its surroundings:
    [str(uuid.uuid4())] and [datetime.utcnow().isoformat()]. *)
Record Fresh : Type := { uuid4 : string; utcnow : string }.

(** A value of the [subscribers] dict of [InMemoryStorage]. *)
Record Subscriber : Type :=
  { sub_id : string; sub_subscribed_at : string; sub_status : string }.

(** An item of the DynamoDB table. *)
Record Item : Type :=
  { item_id : string; item_email : string;
    item_subscribed_at : string; item_status : string }.

(** The table behind [self.table]: its items, and for each of the coming
    requests to the service whether it fails and how ([None] or an
    exhausted list: the request succeeds). *)
Record Table : Type :=
  { items : list Item; pending : list (option exn) }.

Definition next_fault (t : Table) : option exn * Table :=
  match pending t with
  | [] => (None, t)
  | f :: fs => (f, {| items := items t; pending := fs |})
  end.

(** [table.put_item(Item=item)]: the item replaces the one with its key
    [id], if any. *)
Definition put_item (item : Item) (t : Table) : outcome unit * Table :=
  let '(f, t1) := next_fault t in
  match f with
  | Some e => (Raise e, t1)
  | None =>
      (Return tt,
       {| items :=
            filter (fun i => item_id i ≠ item_id item) (items t1) ++ [item];
          pending := pending t1 |})
  end.

(** The size of an item as the service counts it: the UTF-8 bytes of
    its attribute names and of its string values (one byte for a
    character below U+0080, two from there to U+00FF). *)
Definition utf8_length (s : string) : N :=
  fold_right (fun c n => ((if (Str.code c <? 128)%N then 1 else 2) + n)%N)
    0%N (Str.chars s).

Definition item_size (i : Item) : N :=
  (utf8_length "id" + utf8_length (item_id i)
   + (utf8_length "email" + utf8_length (item_email i))
   + (utf8_length "subscribed_at" + utf8_length (item_subscribed_at i))
   + (utf8_length "status" + utf8_length (item_status i)))%N.

(** One scan request reads at most 1 MB of the table. *)
Definition page_limit : N := 1048576.

(** The page one scan request reads: the items from the start of the
    table, in the order the list holds them, for which there is room. *)
Fixpoint first_page_from (room : N) (l : list Item) : list Item :=
  match l with
  | [] => []
  | i :: l' =>
      if (item_size i <=? room)%N
      then i :: first_page_from (room - item_size i) l'
      else []
  end.

Definition first_page (l : list Item) : list Item :=
  first_page_from page_limit l.

(** [table.scan(FilterExpression=Attr('email').eq(v))]: one request. The
    service reads one page of the table and filters what it read; the
    response holds the matching items of that page under ['Items']. When
    the page ends before the table the response also names the key to
    go on from, which [is_subscribed] does not look at. *)
Definition scan_email_eq (v : string) (t : Table)
    : outcome (list (string * list Item)) * Table :=
  let '(f, t1) := next_fault t in
  match f with
  | Some e => (Raise e, t1)
  | None =>
      (Return [("Items", filter (fun i => item_email i = v)
                           (first_page (items t1)))], t1)
  end.

(** [response.get('Items', [])] *)
Fixpoint response_get_Items (response : list (string * list Item)) : list Item :=
  match response with
  | [] => []
  | (k, v) :: r => if bool_decide (k = "Items") then v else response_get_Items r
  end.

Inductive Storage : Type :=
| InMemoryStorage (subscribers : gmap string Subscriber)
| DynamoDBStorage (table_name : string) (table : Table).

Module DynamoDB.

(** [DynamoDBStorage.add_subscriber] *)
Definition add_subscriber (fr : Fresh) (email : string) (t : Table)
    : outcome bool * Table :=
  let item :=
    {| item_id := uuid4 fr;
       item_email := Str.strip (Str.lower email);
       item_subscribed_at := utcnow fr;
       item_status := "active" |} in
  match put_item item t with
  | (Return _, t') => (Return true, t')
  | (Raise _, t') => (Return false, t')
  end.

(** [DynamoDBStorage.is_subscribed] *)
Definition is_subscribed (email : string) (t : Table) : outcome bool * Table :=
  match scan_email_eq (Str.strip (Str.lower email)) t with
  | (Return response, t') =>
      (Return (0 <? length (response_get_Items response))%nat, t')
  | (Raise _, t') => (Return false, t')
  end.

End DynamoDB.

Module InMemory.

(** [InMemoryStorage.add_subscriber] *)
Definition add_subscriber (fr : Fresh) (email : string)
    (subscribers : gmap string Subscriber)
    : outcome bool * gmap string Subscriber :=
  let email := Str.strip (Str.lower email) in
  (Return true,
   <[email := {| sub_id := uuid4 fr;
                 sub_subscribed_at := utcnow fr;
                 sub_status := "active" |}]> subscribers).

(** [InMemoryStorage.is_subscribed] *)
Definition is_subscribed (email : string)
    (subscribers : gmap string Subscriber)
    : outcome bool * gmap string Subscriber :=
  (Return (bool_decide (is_Some (subscribers !! Str.strip (Str.lower email)))),
   subscribers).

End InMemory.

(** Method dispatch on the storage object. *)
Definition add_subscriber (fr : Fresh) (email : string) (st : Storage)
    : outcome bool * Storage :=
  match st with
  | InMemoryStorage subs =>
      let '(r, subs') := InMemory.add_subscriber fr email subs in
      (r, InMemoryStorage subs')
  | DynamoDBStorage name t =>
      let '(r, t') := DynamoDB.add_subscriber fr email t in
      (r, DynamoDBStorage name t')
  end.

Definition is_subscribed (email : string) (st : Storage)
    : outcome bool * Storage :=
  match st with
  | InMemoryStorage subs =>
      let '(r, subs') := InMemory.is_subscribed email subs in
      (r, InMemoryStorage subs')
  | DynamoDBStorage name t =>
      let '(r, t') := DynamoDB.is_subscribed email t in
      (r, DynamoDBStorage name t')
  end.

(** ** The storage factory ([get_storage], both adapters) *)

(** [os.getenv(key, default)] *)
Definition getenv (env : gmap string string) (key default : string) : string :=
  match env !! key with Some v => v | None => default end.

(** [DynamoDBStorage()]: [boto3_table region name] is what
    [boto3.resource('dynamodb', region_name=region).Table(name)] does,
    which is to give the table or to raise (as boto3 does for a region
    it cannot make an endpoint from); what it raises leaves the
    constructor. *)
Definition DynamoDBStorage_init (boto3_table : string -> string -> outcome Table)
    (env : gmap string string) : outcome Storage :=
  let table_name := getenv env "DYNAMODB_TABLE" "newsletter_subscribers" in
  let region := getenv env "AWS_REGION" "us-east-1" in
  match boto3_table region table_name with
  | Return table => Return (DynamoDBStorage table_name table)
  | Raise e => Raise e
  end.

Definition get_storage (boto3_table : string -> string -> outcome Table)
    (env : gmap string string) : outcome Storage :=
  let storage_type := Str.lower (getenv env "STORAGE_TYPE" "dynamodb") in
  if bool_decide (storage_type = "memory") then
    Return (InMemoryStorage ∅)
  else if bool_decide (storage_type = "dynamodb") then
    DynamoDBStorage_init boto3_table env
  else
    Raise (ValueError ("Unsupported storage type: " +:+ storage_type)).

(** ** The adapters and the storage they share *)

(** The storage methods an adapter called, oldest first. *)
Inductive Call : Type :=
| IsSubscribed (email : string)
| AddSubscriber (email : string).

(** The module-level [storage] object, and the log of the calls made on
    it. *)
Record World : Type := { storage : Storage; calls : list Call }.

(** [storage.is_subscribed(email)] *)
Definition call_is_subscribed (email : string) (w : World) : outcome bool * World :=
  let '(r, st) := is_subscribed email (storage w) in
  (r, {| storage := st; calls := calls w ++ [IsSubscribed email] |}).

(** [storage.add_subscriber(email)] *)
Definition call_add_subscriber (fr : Fresh) (email : string) (w : World)
    : outcome bool * World :=
  let '(r, st) := add_subscriber fr email (storage w) in
  (r, {| storage := st; calls := calls w ++ [AddSubscriber email] |}).

(** The payloads the adapters answer with. *)
Definition error_payload (message : string) : pyval :=
  PDict [("error", PStr message)].

Definition success_payload (message : string) : pyval :=
  PDict [("success", PBool true); ("message", PStr message)].

(** *** HTTP adapter ([flask_server.py]) *)

(** What the view reads of Flask's [request]: [request.is_json], and what
    [request.get_json()] does. *)
Record Request : Type := { is_json : bool; get_json : outcome pyval }.

(** The object [jsonify] builds from a payload. *)
Inductive FlaskResponse : Type :=
| jsonify (data : pyval).

(** [subscribe_newsletter]: the value the view function returns, a pair
    of a response and a status, or [None] when it falls off its end. *)
Definition subscribe_newsletter (fr : Fresh) (request : Request) (w : World)
    : outcome (option (FlaskResponse * Z)) * World :=
  if negb (is_json request) then
    (Return (Some (jsonify (error_payload "Content-Type must be application/json"), 415%Z)), w)
  else
  match get_json request with
  | Raise BadRequest =>
      (Return (Some (jsonify (error_payload "Invalid JSON format"), 400%Z)), w)
  | Raise e => (Raise e, w)
  | Return json_data =>
  match json_data with
  | PDict d =>
      if negb (dict_contains "email" d) then
        (Return (Some (jsonify (error_payload "Missing required field: email"), 400%Z)), w)
      else
      match dict_get "email" d with
      | PStr email =>
          if negb (is_valid_email (Str.strip email)) then
            (Return (Some (jsonify (error_payload "Invalid email format"), 400%Z)), w)
          else
          (* try: *)
          match call_is_subscribed email w with
          | (Return true, w1) =>
              (Return (Some (jsonify (success_payload
                 "You are already subscribed to the newsletter"), 200%Z)), w1)
          | (Return false, w1) =>
              match call_add_subscriber fr email w1 with
              | (Return true, w2) =>
                  (Return (Some (jsonify (success_payload
                     "Successfully subscribed to the newsletter"), 201%Z)), w2)
              | (Return false, w2) =>
                  (* logger.error(...), and the function ends *)
                  (Return None, w2)
              | (Raise _, w2) =>
                  (Return (Some (jsonify (error_payload
                     "Failed to process subscription"), 500%Z)), w2)
              end
          (* except Exception: *)
          | (Raise _, w1) =>
              (Return (Some (jsonify (error_payload
                 "Failed to process subscription"), 500%Z)), w1)
          end
      | _ =>
          (Return (Some (jsonify (error_payload "Email must be a string"), 400%Z)), w)
      end
  | _ =>
      (Return (Some (jsonify (error_payload "Request body must be a JSON object"), 400%Z)), w)
  end
  end.

(** *** Event adapter ([lambda_function.py]) *)

(** The two functions of the [json] module the adapter calls. *)
Record Json : Type :=
  { json_loads : string -> outcome pyval;
    json_dumps : pyval -> string }.

Record Response : Type :=
  { statusCode : Z; headers : list (string * string); body : string }.

Definition format_response (json : Json) (body : pyval) (status_code : Z)
    : Response :=
  {| statusCode := status_code;
     headers := [("Content-Type", "application/json");
                 ("Access-Control-Allow-Origin", "*")];
     body := json_dumps json body |}.

Definition lambda_handler (json : Json) (fr : Fresh) (event context : pyval)
    (w : World) : outcome Response * World :=
  (* from "Validate that json_data is a dictionary/object" to the end of
     the inner try statement *)
  let validate_and_process (json_data : pyval) : outcome Response * World :=
    match json_data with
    | PDict d =>
        if negb (dict_contains "email" d) then
          (Return (format_response json (error_payload "Missing required field: email") 400), w)
        else
        match dict_get "email" d with
        | PStr email =>
            if negb (is_valid_email (Str.strip email)) then
              (Return (format_response json (error_payload "Invalid email format") 400), w)
            else
            (* try: *)
            match call_is_subscribed email w with
            | (Return true, w1) =>
                (Return (format_response json (success_payload
                   "You are already subscribed to the newsletter") 200), w1)
            | (Return false, w1) =>
                match call_add_subscriber fr email w1 with
                | (Return true, w2) =>
                    (Return (format_response json (success_payload
                       "Successfully subscribed to the newsletter") 201), w2)
                | (Return false, w2) =>
                    (Return (format_response json (error_payload
                       "Failed to process subscription") 500), w2)
                | (Raise _, w2) =>
                    (Return (format_response json (error_payload
                       "Failed to process subscription") 500), w2)
                end
            (* except Exception: *)
            | (Raise _, w1) =>
                (Return (format_response json (error_payload
                   "Failed to process subscription") 500), w1)
            end
        | _ =>
            (Return (format_response json (error_payload "Email must be a string") 400), w)
        end
    | _ =>
        (Return (format_response json (error_payload "Request body must be a JSON object") 400), w)
    end in
  (* try: *)
  let attempt : outcome Response * World :=
    match py_contains "body" event with
    | Raise e => (Raise e, w)
    | Return true =>
        match py_getitem "body" event with
        | Raise e => (Raise e, w)
        | Return PNone =>
            (Return (format_response json (error_payload "Request body is required") 400), w)
        | Return (PStr s) =>
            match json_loads json s with
            | Return json_data => validate_and_process json_data
            | Raise JSONDecodeError =>
                (Return (format_response json (error_payload "Invalid JSON format") 400), w)
            | Raise e => (Raise e, w)
            end
        | Return json_data => validate_and_process json_data
        end
    | Return false => validate_and_process event
    end in
  (* except Exception: *)
  match attempt with
  | (Raise _, w') =>
      (Return (format_response json (error_payload "Internal server error") 500), w')
  | (Return response, w') => (Return response, w')
  end.

(** ** The email grammar, in the words of the specification *)

Definition one_of (alphabet : string) (c : ascii) : bool :=
  existsb (Ascii.eqb c) (Str.chars alphabet).

Definition letters : string :=
  "abcdefghijklmnopqrstuvwxyzABCDEFGHIJKLMNOPQRSTUVWXYZ".
Definition digits : string := "0123456789".

(** A character from [[A-Za-z0-9._%+-]], from [[A-Za-z0-9.-]], and an
    alphabetic character. *)
Definition local_char (c : ascii) : bool :=
  one_of letters c || one_of digits c || one_of "._%+-" c.
Definition domain_char (c : ascii) : bool :=
  one_of letters c || one_of digits c || one_of ".-" c.
Definition alpha_char (c : ascii) : bool := one_of letters c.

(** One or more local characters, [@], one or more domain characters, a
    dot, two or more alphabetic characters, and nothing else. *)
Definition email_grammar (s : string) : Prop :=
  ∃ loc dom tld : list ascii,
    Str.chars s = (loc ++ "@"%char :: dom ++ "."%char :: tld)%list
    ∧ (1 ≤ length loc)%nat ∧ Forall (λ c, local_char c = true) loc
    ∧ (1 ≤ length dom)%nat ∧ Forall (λ c, domain_char c = true) dom
    ∧ (2 ≤ length tld)%nat ∧ Forall (λ c, alpha_char c = true) tld.

(** ** Requests, in the words of the specification *)

(** Normalized email: lower-cased and trimmed, the key a subscriber is
    stored under. *)
Definition normalize (email : string) : string := Str.strip (Str.lower email).

(** Steps 1 and 2 of the workflow: the body is an object with a string
    under [email] that, once trimmed, passes the validator. [Some] of
    the email as sent, [None] when the body fails validation. *)
Definition valid_email_of (json_data : pyval) : option string :=
  match json_data with
  | PDict d =>
      match dict_lookup "email" d with
      | Some (PStr email) =>
          if is_valid_email (Str.strip email) then Some email else None
      | _ => None
      end
  | _ => None
  end.

(** The body of an HTTP request: what [get_json] decodes, if the request
    declares JSON and decodes. *)
Definition request_email (request : Request) : option string :=
  if is_json request then
    match get_json request with
    | Return json_data => valid_email_of json_data
    | Raise _ => None
    end
  else None.

(** The body of an event: the [body] field when the envelope has one (a
    string is JSON to decode, [null] is no body), else the event
    itself. *)
Definition event_body (json : Json) (event : pyval) : option pyval :=
  match event with
  | PDict d =>
      match dict_lookup "body" d with
      | Some PNone => None
      | Some (PStr s) =>
          match json_loads json s with
          | Return json_data => Some json_data
          | Raise _ => None
          end
      | Some json_data => Some json_data
      | None => Some event
      end
  | _ => Some event
  end.

Definition event_email (json : Json) (event : pyval) : option string :=
  match event_body json event with
  | Some json_data => valid_email_of json_data
  | None => None
  end.

(** Events the adapter cannot read as an envelope: a value that is not a
    container, a string or list in which ['body'] occurs, and a [body]
    string whose decoding fails with something else than a decode
    error. *)
Definition envelope_fault (json : Json) (event : pyval) : bool :=
  match event with
  | PDict d =>
      match dict_lookup "body" d with
      | Some (PStr s) =>
          match json_loads json s with
          | Return _ | Raise JSONDecodeError => false
          | Raise _ => true
          end
      | _ => false
      end
  | PStr s => Str.contains "body" s
  | PList l => existsb (is_str_eq "body") l
  | PNone | PBool _ | PInt _ | PFloat _ => true
  end.

(** Values on which ['body' in event] is defined. *)
Definition supports_membership (event : pyval) : bool :=
  match event with
  | PDict _ | PStr _ | PList _ => true
  | PNone | PBool _ | PInt _ | PFloat _ => false
  end.

(** How many [add_subscriber] calls a log holds. *)
Definition is_add (c : Call) : bool :=
  match c with AddSubscriber _ => true | IsSubscribed _ => false end.

Definition add_calls (cs : list Call) : nat := length (List.filter is_add cs).

(** The next [n] requests to the table succeed. *)
Definition healthy (n : nat) (t : Table) : Prop :=
  Forall (λ f, f = None) (take n (pending t)).

(** The two spellings of one subscriber's address. *)
Definition same_subscriber_emails : list string :=
  ["  Foo@BAR.com "; "foo@bar.com"].

(** The defects of an HTTP request that the view answers itself: a
    content type other than JSON, a body that is no JSON, and a decoded
    body that fails validation. *)
Definition request_defect (request : Request) : Prop :=
  is_json request = false
  ∨ (is_json request = true ∧ get_json request = Raise BadRequest)
  ∨ (is_json request = true
     ∧ ∃ json_data, get_json request = Return json_data
                    ∧ valid_email_of json_data = None).

(** The whole table fits in the page of one scan request. *)
Definition total_size (l : list Item) : N :=
  fold_right (λ i n, (item_size i + n)%N) 0%N l.

Definition one_page (l : list Item) : Prop := (total_size l ≤ page_limit)%N.

(** ** Sample data *)

Definition sample_fresh : Fresh :=
  {| uuid4 := "6f1c2a3e-0d4b-4c7a-9e55-2b8f0a1c3d4e";
     utcnow := "2024-01-01T00:00:00" |}.

Definition empty_table : Table := {| items := []; pending := [] |}.

(** A table of 42000 other subscribers, which takes more than two
    pages to scan. *)
Definition other_subscriber (n : nat) : Item :=
  {| item_id := "subscriber-" +:+ pretty n;
     item_email := "reader" +:+ pretty n +:+ "@example.com";
     item_subscribed_at := "2024-01-01T00:00:00";
     item_status := "active" |}.

Definition crowd (n : nat) : Table :=
  {| items := other_subscriber <$> seq 0 n; pending := [] |}.

Definition crowded_table : Table := crowd (N.to_nat 42000).

(** A [boto3] that gives an empty table in every region and raises for
    the empty region name, from which no endpoint can be made. *)
Definition sample_boto3 (region name : string) : outcome Table :=
  if bool_decide (region = "") then
    Raise (ValueError "Invalid endpoint: https://dynamodb..amazonaws.com")
  else Return empty_table.

(** A [json] module whose decoder rejects every document. *)
Definition strict_json : Json :=
  {| json_loads := λ _, Raise JSONDecodeError;
     json_dumps := λ _, "{}" |}.

Definition memory_world : World :=
  {| storage := InMemoryStorage ∅; calls := [] |}.

(** ** Definitions for the further properties *)

(** The first and the last character of a list, if any, are no white
    space. *)
Definition trimmed_chars (l : list ascii) : Prop :=
  (∀ c l', l = c :: l' → Str.isspace c = false)
  ∧ (∀ c l', l = (l' ++ [c])%list → Str.isspace c = false).

(** Pattern nodes that cannot tell a character from its lower-case
    form. *)
Definition case_blind (n : Re.node) : Prop :=
  match n with
  | Re.Bol | Re.Eol => True
  | Re.One a | Re.AtLeast _ a =>
      ∀ c, Re.atom_matches a (Str.lower_char c) = Re.atom_matches a c
  end.

(** The defect of a decoded body, in the order the adapters look for
    one: not an object, no [email] key, an [email] that is no string, an
    email not of the format; [None] for a body without defect. *)
Definition validation_error (json_data : pyval) : option string :=
  match json_data with
  | PDict d =>
      match dict_lookup "email" d with
      | None => Some "Missing required field: email"
      | Some (PStr email) =>
          if is_valid_email (Str.strip email) then None
          else Some "Invalid email format"
      | Some _ => Some "Email must be a string"
      end
  | _ => Some "Request body must be a JSON object"
  end.

(** The record [InMemoryStorage.add_subscriber] files. *)
Definition new_subscriber (fr : Fresh) : Subscriber :=
  {| sub_id := uuid4 fr; sub_subscribed_at := utcnow fr; sub_status := "active" |}.

(** Every key is a trimmed, lower-case string that the validator
    accepts. *)
Definition keys_wellformed (subs : gmap string Subscriber) : Prop :=
  ∀ k, is_Some (subs !! k) → is_valid_email k = true ∧ normalize k = k.

(** One process serving events in turn: each invocation gets its own
    identifier and time stamp and finds the storage as the previous one
    left it. *)
Definition serve (json : Json) (invocations : list (Fresh * pyval)) (w : World)
    : World :=
  foldl (λ w0 '(fr, event), (lambda_handler json fr event PNone w0).2) w invocations.

(** The item [DynamoDBStorage.add_subscriber] puts. *)
Definition new_item (fr : Fresh) (email : string) : Item :=
  {| item_id := uuid4 fr; item_email := normalize email;
     item_subscribed_at := utcnow fr; item_status := "active" |}.

(** How many items of the table carry an email. *)
Definition email_count (v : string) (t : Table) : nat :=
  length (filter (λ i, item_email i = v) (items t)).

(** How many of them one scan request sees. *)
Definition page_count (v : string) (t : Table) : nat :=
  length (filter (λ i, item_email i = v) (first_page (items t))).

(** The next request to the table fails. *)
Definition failing (t : Table) : bool :=
  match pending t with Some _ :: _ => true | _ => false end.

(** The table once it has answered a request that wrote nothing, and
    once it has stored the item of [add_subscriber]. *)
Definition answered (t : Table) : Table :=
  {| items := items t; pending := tail (pending t) |}.

Definition written (fr : Fresh) (email : string) (t : Table) : Table :=
  {| items := filter (λ i, item_id i ≠ uuid4 fr) (items t) ++ [new_item fr email];
     pending := tail (pending t) |}.

(** No item of the table has the identifier of [fr]. *)
Definition fresh_for (fr : Fresh) (t : Table) : Prop :=
  Forall (λ i, item_id i ≠ uuid4 fr) (items t).

(** * Properties *)

(** ** Strings *)

Lemma chars_of_chars l : Str.chars (Str.of_chars l) = l.
Proof. apply list_ascii_of_string_of_list_ascii. Qed.

Lemma of_chars_chars s : Str.of_chars (Str.chars s) = s.
Proof. apply string_of_list_ascii_of_string. Qed.

Lemma chars_inj s t : Str.chars s = Str.chars t → s = t.
Proof.
  intros H. rewrite <- (of_chars_chars s), <- (of_chars_chars t). by rewrite H.
Qed.

Lemma chars_app s t : Str.chars (s +:+ t) = (Str.chars s ++ Str.chars t)%list.
Proof. induction s as [|c s IH]; simpl; [done | by rewrite <- IH]. Qed.

(** ** The matcher *)

Lemma match_at_least_spec a k rest : ∀ min pos,
  Re.match_at_least a k min pos rest = true ↔
  ∃ pre post, rest = (pre ++ post)%list
    ∧ Forall (λ c, Re.atom_matches a c = true) pre
    ∧ (min ≤ length pre)%nat
    ∧ k (pos + length pre)%nat post = true.
Proof.
  induction rest as [|c rest IH]; intros min pos; simpl.
  - rewrite andb_true_iff, Nat.eqb_eq. split.
    + intros [-> Hk]. exists [], []. simpl. rewrite Nat.add_0_r. auto.
    + intros (pre & post & Heq & _ & Hmin & Hk).
      symmetry in Heq. apply app_eq_nil in Heq as [-> ->]. simpl in *.
      rewrite Nat.add_0_r in Hk. split; [lia | done].
  - rewrite orb_true_iff, !andb_true_iff, Nat.eqb_eq, IH. split.
    + intros [[Hc (pre & post & -> & Hall & Hmin & Hk)] | [-> Hk]].
      * exists (c :: pre), post. simpl. repeat split; auto; [lia|].
        rewrite <- Hk. f_equal. lia.
      * exists [], (c :: rest). simpl. rewrite Nat.add_0_r. auto.
    + intros (pre & post & Heq & Hall & Hmin & Hk). destruct pre as [|c' pre].
      * right. simpl in *. rewrite Nat.add_0_r in Hk. subst post.
        split; [lia | done].
      * left. simpl in Heq. injection Heq as Hc' Hrest. subst c' rest.
        apply Forall_cons in Hall as [Hc Hall]. split; [done|].
        exists pre, post. simpl in *. repeat split; auto; [lia|].
        rewrite <- Hk. f_equal. lia.
Qed.

Lemma at_end_spec rest :
  Re.at_end rest = true ↔ rest = [] ∨ rest = ["010"%char].
Proof.
  destruct rest as [|c [|c' rest]]; simpl.
  - split; auto.
  - rewrite bool_decide_eq_true.
    split; [intros ->; by right | intros [?|?]; congruence].
  - split; [done | intros [?|?]; done].
Qed.

Lemma local_class_spec c :
  Re.atom_matches (Re.Class local_class) c = local_char c.
Proof. destruct c as [[] [] [] [] [] [] [] []]; reflexivity. Qed.

Lemma domain_class_spec c :
  Re.atom_matches (Re.Class domain_class) c = domain_char c.
Proof. destruct c as [[] [] [] [] [] [] [] []]; reflexivity. Qed.

Lemma alpha_class_spec c :
  Re.atom_matches (Re.Class alpha_class) c = alpha_char c.
Proof. destruct c as [[] [] [] [] [] [] [] []]; reflexivity. Qed.

Lemma Forall_class_ext (f g : ascii → bool) (l : list ascii) :
  (∀ c, f c = g c) →
  Forall (λ c, f c = true) l ↔ Forall (λ c, g c = true) l.
Proof. intros E. apply Forall_proper; [|done]. intros c. by rewrite E. Qed.

(** What [re.match] accepts for [pattern]: the grammar, followed by the
    end of the string or by one final newline. *)
Lemma pattern_matches_chars l :
  Re.match_here pattern 0 l = true ↔
  ∃ loc dom tld tail : list ascii,
    l = (loc ++ "@"%char :: dom ++ "."%char :: tld ++ tail)%list
    ∧ (1 ≤ length loc)%nat ∧ Forall (λ c, local_char c = true) loc
    ∧ (1 ≤ length dom)%nat ∧ Forall (λ c, domain_char c = true) dom
    ∧ (2 ≤ length tld)%nat ∧ Forall (λ c, alpha_char c = true) tld
    ∧ (tail = [] ∨ tail = ["010"%char]).
Proof.
  unfold pattern. cbn [Re.match_here]. simpl Nat.eqb. rewrite andb_true_l.
  rewrite match_at_least_spec. split.
  - intros (loc & r1 & -> & Hloc & Hn1 & H1).
    destruct r1 as [|c1 r1]; [done|].
    apply andb_true_iff in H1 as [Hat H1].
    apply bool_decide_eq_true in Hat as ->.
    apply match_at_least_spec in H1 as (dom & r2 & -> & Hdom & Hn2 & H2).
    destruct r2 as [|c2 r2]; [done|].
    apply andb_true_iff in H2 as [Hdot H2].
    apply bool_decide_eq_true in Hdot as ->.
    apply match_at_least_spec in H2 as (tld & tail & -> & Htld & Hn3 & H3).
    rewrite andb_true_r in H3. apply at_end_spec in H3.
    exists loc, dom, tld, tail. repeat split; auto.
    + by apply (Forall_class_ext _ _ _ local_class_spec).
    + by apply (Forall_class_ext _ _ _ domain_class_spec).
    + by apply (Forall_class_ext _ _ _ alpha_class_spec).
  - intros (loc & dom & tld & tail & -> & Hn1 & Hloc & Hn2 & Hdom & Hn3 & Htld & Htail).
    exists loc, ("@"%char :: dom ++ "."%char :: tld ++ tail)%list.
    repeat split; auto.
    { by apply (Forall_class_ext _ _ _ local_class_spec). }
    apply andb_true_iff. split; [by apply bool_decide_eq_true|].
    apply match_at_least_spec.
    exists dom, ("."%char :: tld ++ tail)%list. repeat split; auto.
    { by apply (Forall_class_ext _ _ _ domain_class_spec). }
    apply andb_true_iff. split; [by apply bool_decide_eq_true|].
    apply match_at_least_spec.
    exists tld, tail. repeat split; auto.
    { by apply (Forall_class_ext _ _ _ alpha_class_spec). }
    rewrite andb_true_r. by apply at_end_spec.
Qed.

Lemma shape_app (loc dom tld tail : list ascii) :
  (loc ++ "@"%char :: dom ++ "."%char :: tld ++ tail)%list
  = ((loc ++ "@"%char :: dom ++ "."%char :: tld) ++ tail)%list.
Proof. rewrite <- app_assoc. simpl. by rewrite <- app_assoc. Qed.

Lemma email_grammar_at s :
  email_grammar s →
  ∃ pre post, Str.chars s = (pre ++ "@"%char :: post)%list ∧ "."%char ∈ post.
Proof.
  intros (loc & dom & tld & -> & _). exists loc, (dom ++ "."%char :: tld)%list.
  split; [done|]. apply elem_of_app. right. apply elem_of_cons. by left.
Qed.

(** ** Trimmed strings *)

Lemma rstrip_snoc l c :
  Str.rstrip_chars (l ++ [c])
  = if Str.isspace c then Str.rstrip_chars l else (l ++ [c])%list.
Proof.
  unfold Str.rstrip_chars. rewrite rev_app_distr. simpl.
  destruct (Str.isspace c); [done|]. simpl. by rewrite rev_involutive.
Qed.

Lemma lstrip_head l c l' :
  Str.lstrip_chars l = c :: l' → Str.isspace c = false.
Proof.
  induction l as [|a l IH]; simpl; [done|].
  destruct (Str.isspace a) eqn:E; [done|]. by intros [= <- _].
Qed.

Lemma lstrip_fixed l :
  (∀ c l', l = c :: l' → Str.isspace c = false) → Str.lstrip_chars l = l.
Proof. destruct l as [|c l]; simpl; [done|]. intros H. by rewrite (H c l). Qed.

Lemma rstrip_last l c l' :
  Str.rstrip_chars l = (l' ++ [c])%list → Str.isspace c = false.
Proof.
  unfold Str.rstrip_chars. intros H.
  apply (f_equal (@rev ascii)) in H. rewrite rev_involutive, rev_app_distr in H.
  simpl in H. by apply lstrip_head in H.
Qed.

Lemma rstrip_fixed l :
  (∀ c l', l = (l' ++ [c])%list → Str.isspace c = false) → Str.rstrip_chars l = l.
Proof.
  intros H. unfold Str.rstrip_chars. rewrite lstrip_fixed; [apply rev_involutive|].
  intros c l' E. apply (H c (rev l')).
  rewrite <- (rev_involutive l), E. done.
Qed.

Lemma rstrip_head l c l' :
  Str.isspace c = false → l = c :: l' →
  ∃ l'', Str.rstrip_chars l = c :: l''.
Proof.
  intros Hc ->. induction l' as [|a l' IH] using rev_ind.
  - exists []. change [c] with ([] ++ [c])%list. by rewrite rstrip_snoc, Hc.
  - rewrite app_comm_cons, rstrip_snoc. destruct (Str.isspace a); [done|].
    by eexists.
Qed.

Lemma strip_trimmed l : trimmed_chars (Str.rstrip_chars (Str.lstrip_chars l)).
Proof.
  split.
  - intros c l' E. destruct (Str.lstrip_chars l) as [|a k] eqn:El.
    { by rewrite (rstrip_fixed []) in E; [|intros ? [|??] ?]. }
    pose proof (lstrip_head _ _ _ El) as Ha.
    destruct (rstrip_head (a :: k) a k Ha eq_refl) as (l'' & E').
    rewrite E' in E. by injection E as <- _.
  - intros c l' E. by apply rstrip_last in E.
Qed.

Lemma strip_fixed l :
  trimmed_chars l → Str.rstrip_chars (Str.lstrip_chars l) = l.
Proof. intros [H1 H2]. rewrite lstrip_fixed by done. by apply rstrip_fixed. Qed.

Lemma chars_strip_trimmed s : trimmed_chars (Str.chars (Str.strip s)).
Proof. unfold Str.strip. rewrite chars_of_chars. apply strip_trimmed. Qed.

Lemma valid_stripped_iff_grammar email :
  is_valid_email (Str.strip email) = true ↔ email_grammar (Str.strip email).
Proof.
  unfold is_valid_email, Re.matches. rewrite pattern_matches_chars. split.
  - intros (loc & dom & tld & tail & Heq & Hn1 & Hloc & Hn2 & Hdom & Hn3 & Htld & Ht).
    destruct Ht as [-> | ->].
    + exists loc, dom, tld. rewrite app_nil_r in Heq. auto 10.
    + destruct (chars_strip_trimmed email) as [_ Hlast].
      rewrite shape_app in Heq. by apply Hlast in Heq.
  - intros (loc & dom & tld & Heq & H). exists loc, dom, tld, [].
    rewrite app_nil_r. destruct H as (? & ? & ? & ? & ? & ?). auto 10.
Qed.

(** C3. For every string [s] that is trimmed, as the validator expects
    it and as both adapters pass it, [is_valid_email s] is true exactly
    when [s] is one or more characters of [[A-Za-z0-9._%+-]], then [@],
    then one or more characters of [[A-Za-z0-9.-]], then a dot, then two
    or more letters, with nothing before or after; and, for every
    string, the empty string, a string without [@] and a string with no
    dot after an [@] are rejected. *)
Theorem is_valid_email_iff_grammar (s : string) :
  (Str.strip s = s → (is_valid_email s = true ↔ email_grammar s))
  ∧ is_valid_email "" = false
  ∧ ("@"%char ∉ Str.chars s → is_valid_email s = false)
  ∧ ((∀ pre post, Str.chars s = (pre ++ "@"%char :: post)%list → "."%char ∉ post)
     → is_valid_email s = false).
Proof.
  assert (Hat : is_valid_email s = true →
     ∃ pre post, Str.chars s = (pre ++ "@"%char :: post)%list ∧ "."%char ∈ post).
  { unfold is_valid_email, Re.matches. rewrite pattern_matches_chars.
    intros (loc & dom & tld & tail & Heq & _).
    exists loc, (dom ++ "."%char :: tld ++ tail)%list. split; [done|].
    apply elem_of_app. right. apply elem_of_cons. by left. }
  split; [|split; [reflexivity|split]].
  - intros Hs. rewrite <- Hs. apply valid_stripped_iff_grammar.
  - intros Hno. apply not_true_is_false. intros (pre & post & Heq & _)%Hat.
    apply Hno. rewrite Heq. apply elem_of_app. right. apply elem_of_cons. by left.
  - intros Hno. apply not_true_is_false. intros (pre & post & Heq & Hin)%Hat.
    by apply (Hno pre post).
Qed.

Lemma is_valid_email_iff_grammar_witness :
  (is_valid_email "a@b.com" = true ↔ email_grammar "a@b.com")
  ∧ is_valid_email "ab.com" = false.
Proof.
  split.
  - destruct (is_valid_email_iff_grammar "a@b.com") as (Hiff & _).
    apply Hiff. reflexivity.
  - destruct (is_valid_email_iff_grammar "ab.com") as (_ & _ & Hat & _).
    apply Hat. intros Hin.
    repeat (apply elem_of_cons in Hin as [Hin | Hin]; [discriminate Hin|]).
    by apply elem_of_nil in Hin.
Defined.

(** ** Storage *)

Lemma next_fault_healthy n t :
  healthy (S n) t →
  ∃ t1, next_fault t = (None, t1) ∧ items t1 = items t ∧ healthy n t1.
Proof.
  unfold healthy, next_fault. destruct t as [its [|f fs]]; simpl.
  - intros _. eexists. split; [done|]. split; [done|]. by destruct n.
  - intros [-> H]%Forall_cons. eexists. split; [done|]. by split.
Qed.

Lemma next_fault_raises t e fs :
  pending t = Some e :: fs →
  next_fault t = (Some e, {| items := items t; pending := fs |}).
Proof. unfold next_fault. by intros ->. Qed.

(** The page of a scan is a prefix of the table; it is the whole table
    when that fits, and ends inside a part that does not fit. *)
Lemma first_page_from_prefix l : ∀ room,
  ∃ rest, l = (first_page_from room l ++ rest)%list.
Proof.
  induction l as [|i l IH]; intros room; simpl; [by exists []|].
  destruct (item_size i <=? room)%N.
  - destruct (IH (room - item_size i)%N) as (rest & E). exists rest.
    simpl. by rewrite <- E.
  - by exists (i :: l).
Qed.

Lemma first_page_from_all l : ∀ room,
  (total_size l ≤ room)%N → first_page_from room l = l.
Proof.
  induction l as [|i l IH]; intros room H; simpl in *; [done|].
  rewrite (proj2 (N.leb_le _ _)) by lia. rewrite IH; [done | lia].
Qed.

Lemma first_page_from_full l l2 : ∀ room,
  (room < total_size l)%N →
  first_page_from room (l ++ l2) = first_page_from room l.
Proof.
  induction l as [|i l IH]; intros room H; simpl in *; [lia|].
  destruct (item_size i <=? room)%N eqn:E; [|done].
  apply N.leb_le in E. rewrite IH; [done | lia].
Qed.

Lemma page_count_le v t : (page_count v t ≤ email_count v t)%nat.
Proof.
  unfold page_count, email_count, first_page.
  destruct (first_page_from_prefix (items t) page_limit) as (rest & E).
  rewrite E at 2. rewrite filter_app, length_app. lia.
Qed.

Lemma page_count_one_page v t :
  one_page (items t) → page_count v t = email_count v t.
Proof.
  intros H. unfold page_count, email_count, first_page.
  by rewrite first_page_from_all.
Qed.

(** What the two methods of the durable store do, by what the table
    does with the request. *)
Lemma dynamodb_is_subscribed_eq e t :
  DynamoDB.is_subscribed e t
  = (Return (negb (failing t) && (0 <? page_count (normalize e) t)%nat),
     answered t).
Proof. destruct t as [its [|[ex|] fs]]; reflexivity. Qed.

Lemma dynamodb_add_subscriber_eq fr e t :
  DynamoDB.add_subscriber fr e t
  = if failing t then (Return false, answered t)
    else (Return true, written fr e t).
Proof. destruct t as [its [|[ex|] fs]]; reflexivity. Qed.

Lemma healthy_S n t :
  healthy (S n) t → failing t = false ∧ healthy n (answered t).
Proof.
  unfold healthy, failing, answered. destruct t as [its [|f fs]]; simpl.
  - intros _. split; [done|]. by destruct n.
  - intros [-> H]%Forall_cons. done.
Qed.

Lemma healthy_written n fr e t : healthy n (answered t) → healthy n (written fr e t).
Proof. done. Qed.

Lemma new_item_written fr e t : new_item fr e ∈ items (written fr e t).
Proof.
  unfold written. simpl. apply elem_of_app. right. by apply list_elem_of_singleton.
Qed.

Lemma filter_fresh fr t :
  fresh_for fr t → filter (λ i, item_id i ≠ uuid4 fr) (items t) = items t.
Proof.
  unfold fresh_for. induction (items t) as [|i l IH]; [done|].
  intros [Hi Hl]%Forall_cons. rewrite filter_cons_True by done. by rewrite IH.
Qed.

(** The durable store never lets an exception out, whatever the table
    does. *)
Lemma dynamodb_is_subscribed_returns email t :
  ∃ b t', DynamoDB.is_subscribed email t = (Return b, t').
Proof. rewrite dynamodb_is_subscribed_eq. by eexists _, _. Qed.

Lemma dynamodb_add_subscriber_returns fr email t :
  ∃ b t', DynamoDB.add_subscriber fr email t = (Return b, t').
Proof.
  rewrite dynamodb_add_subscriber_eq. destruct (failing t); by eexists _, _.
Qed.

(** C6. For the durable (DynamoDB) store: when the underlying table call
    raises, whatever the exception, [is_subscribed] returns false and
    [add_subscriber] returns false; and on every table, failing or not,
    both methods return a boolean and propagate no exception. *)
Theorem dynamodb_fails_closed (fr : Fresh) (email : string) (t : Table)
    (e : exn) (fs : list (option exn)) :
  pending t = Some e :: fs →
  (∃ t', scan_email_eq (Str.strip (Str.lower email)) t = (Raise e, t')
         ∧ DynamoDB.is_subscribed email t = (Return false, t'))
  ∧ (∃ item t', put_item item t = (Raise e, t')
         ∧ DynamoDB.add_subscriber fr email t = (Return false, t'))
  ∧ (∀ t0, ∃ b t', DynamoDB.is_subscribed email t0 = (Return b, t'))
  ∧ (∀ t0, ∃ b t', DynamoDB.add_subscriber fr email t0 = (Return b, t')).
Proof.
  intros Hp. repeat split.
  - unfold DynamoDB.is_subscribed, scan_email_eq.
    rewrite (next_fault_raises _ _ _ Hp). by eexists.
  - exists {| item_id := uuid4 fr; item_email := Str.strip (Str.lower email);
              item_subscribed_at := utcnow fr; item_status := "active" |}.
    unfold DynamoDB.add_subscriber, put_item.
    rewrite (next_fault_raises _ _ _ Hp). by eexists.
  - intros t0. apply dynamodb_is_subscribed_returns.
  - intros t0. apply dynamodb_add_subscriber_returns.
Qed.

Lemma dynamodb_fails_closed_witness :
  let t := {| items := []; pending := [Some (OtherException "ClientError")] |} in
  pending t = [Some (OtherException "ClientError")]
  ∧ (∃ t', DynamoDB.is_subscribed "a@b.com" t = (Return false, t'))
  ∧ (∃ t', DynamoDB.add_subscriber sample_fresh "a@b.com" t = (Return false, t')).
Proof.
  intros t.
  destruct (dynamodb_fails_closed sample_fresh "a@b.com" t
              (OtherException "ClientError") [] eq_refl)
    as ((t1 & _ & H1) & (item & t2 & _ & H2) & _).
  split; [reflexivity|]. split; [by exists t1 | by exists t2].
Defined.

Lemma inmemory_add_then_subscribed fr a b (subs : gmap string Subscriber) :
  normalize a = normalize b →
  ∃ r, InMemory.add_subscriber fr a subs = (Return true, <[normalize a := r]> subs)
     ∧ InMemory.is_subscribed b (<[normalize a := r]> subs)
       = (Return true, <[normalize a := r]> subs).
Proof.
  intros E. eexists. split; [reflexivity|].
  unfold InMemory.is_subscribed. fold (normalize b). rewrite <- E.
  rewrite lookup_insert_eq. by rewrite bool_decide_eq_true_2.
Qed.

(** On a table that answers and that one scan covers, the item just put
    is found under every address of its normalized form. *)
Lemma dynamodb_add_then_subscribed fr a b t :
  normalize a = normalize b →
  healthy 2 t →
  one_page (items (written fr a t)) →
  DynamoDB.add_subscriber fr a t = (Return true, written fr a t)
  ∧ DynamoDB.is_subscribed b (written fr a t)
    = (Return true, answered (written fr a t)).
Proof.
  intros E Hh Hp. destruct (healthy_S 1 t Hh) as [Hf0 Hh1].
  destruct (healthy_S 0 _ (healthy_written 1 fr a t Hh1)) as [Hf1 _].
  rewrite dynamodb_add_subscriber_eq, Hf0. split; [done|].
  rewrite dynamodb_is_subscribed_eq, Hf1, (page_count_one_page _ _ Hp). simpl.
  assert (Hin : new_item fr a ∈ filter (λ i, item_email i = normalize b)
                                   (items (written fr a t))).
  { apply list_elem_of_filter. split; [done | apply new_item_written]. }
  unfold email_count.
  destruct (filter _ (items (written fr a t))) as [|i l];
    [by apply elem_of_nil in Hin | done].
Qed.

(** Every other subscriber takes at least 51 bytes of a page. *)
Lemma total_size_other_subscribers (l : list nat) :
  (51 * N.of_nat (length l) ≤ total_size (other_subscriber <$> l))%N.
Proof.
  induction l as [|n l IH]; [simpl; lia|].
  rewrite fmap_cons. cbn [total_size fold_right length].
  fold (total_size (other_subscriber <$> l)).
  assert (51 ≤ item_size (other_subscriber n))%N; [|lia].
  unfold item_size, other_subscriber. cbn [item_subscribed_at item_status].
  change (utf8_length "id") with 2%N. change (utf8_length "email") with 5%N.
  change (utf8_length "subscribed_at") with 13%N.
  change (utf8_length "status") with 6%N.
  change (utf8_length "2024-01-01T00:00:00") with 19%N.
  change (utf8_length "active") with 6%N. lia.
Qed.

Lemma filter_email_none v (p : list Item) :
  Forall (λ i, item_email i ≠ v) p → filter (λ i, item_email i = v) p = [].
Proof.
  induction 1 as [|i p Hi Hp IH]; [done|]. by rewrite filter_cons_False.
Qed.

(** A scan whose page ends inside a list of items sees nothing of what
    follows the list. *)
Lemma page_ends_before (l : list Item) (x : Item) (v : string) :
  (page_limit < total_size l)%N →
  Forall (λ i, item_email i ≠ v) l →
  filter (λ i, item_email i = v) (first_page (l ++ [x])) = [].
Proof.
  intros Hfull Hl. unfold first_page. rewrite first_page_from_full by done.
  destruct (first_page_from_prefix l page_limit) as (rest & E).
  rewrite E in Hl. apply Forall_app in Hl as [Hl _].
  by apply filter_email_none.
Qed.

Lemma crowd_page_misses_new_item n fr e v :
  (page_limit < 51 * N.of_nat n)%N →
  fresh_for fr (crowd n) →
  (∀ k, item_email (other_subscriber k) ≠ v) →
  page_count v (written fr e (crowd n)) = 0%nat.
Proof.
  intros Hn Hfr Hv. unfold page_count, written. cbn [items].
  rewrite (filter_fresh fr (crowd n) Hfr). unfold crowd. cbn [items].
  rewrite page_ends_before; [done| |].
  - pose proof (total_size_other_subscribers (seq 0 n)) as H.
    rewrite length_seq in H. lia.
  - apply Forall_forall. intros i Hi.
    apply list_elem_of_fmap in Hi as (k & -> & _). apply Hv.
Qed.

Lemma crowded_table_answers : failing crowded_table = false.
Proof. reflexivity. Qed.

Lemma crowded_page_misses_new_item fr e v :
  fresh_for fr crowded_table →
  (∀ k, item_email (other_subscriber k) ≠ v) →
  page_count v (written fr e crowded_table) = 0%nat.
Proof.
  apply crowd_page_misses_new_item. rewrite N2Nat.id. reflexivity.
Qed.

(** C4. ["  Foo@BAR.com "] and ["foo@bar.com"] normalize to the one key
    ["foo@bar.com"]. In the volatile store, and in the durable store on
    a table that answers and that one scan request covers, after
    [add_subscriber] with one of them [is_subscribed] with the other
    returns true. On the crowded table, where the page of the single
    scan ends before the item just put, [is_subscribed] returns false
    although every request to the table succeeds. *)
Theorem normalization_same_subscriber (fr : Fresh) (a b : string) :
  a ∈ same_subscriber_emails → b ∈ same_subscriber_emails →
  normalize a = "foo@bar.com" ∧ normalize b = "foo@bar.com"
  ∧ (∀ subs : gmap string Subscriber, ∃ r,
       InMemory.add_subscriber fr a subs = (Return true, <["foo@bar.com" := r]> subs)
       ∧ InMemory.is_subscribed b (<["foo@bar.com" := r]> subs)
         = (Return true, <["foo@bar.com" := r]> subs))
  ∧ (∀ t, healthy 2 t → one_page (items (written fr a t)) →
       DynamoDB.add_subscriber fr a t = (Return true, written fr a t)
       ∧ new_item fr a ∈ items (written fr a t)
       ∧ item_email (new_item fr a) = "foo@bar.com"
       ∧ DynamoDB.is_subscribed b (written fr a t)
         = (Return true, answered (written fr a t)))
  ∧ (fresh_for fr crowded_table →
       DynamoDB.add_subscriber fr a crowded_table
       = (Return true, written fr a crowded_table)
       ∧ new_item fr a ∈ items (written fr a crowded_table)
       ∧ item_email (new_item fr a) = "foo@bar.com"
       ∧ DynamoDB.is_subscribed b (written fr a crowded_table)
         = (Return false, answered (written fr a crowded_table))).
Proof.
  intros Ha Hb.
  assert (Na : normalize a = "foo@bar.com").
  { apply elem_of_cons in Ha as [-> | Ha]; [reflexivity|].
    apply list_elem_of_singleton in Ha as ->. reflexivity. }
  assert (Nb : normalize b = "foo@bar.com").
  { apply elem_of_cons in Hb as [-> | Hb]; [reflexivity|].
    apply list_elem_of_singleton in Hb as ->. reflexivity. }
  assert (E : normalize a = normalize b) by congruence.
  split; [done|]. split; [done|]. split; [|split].
  - intros subs. rewrite <- Na. by apply inmemory_add_then_subscribed.
  - intros t Hh Hp.
    destruct (dynamodb_add_then_subscribed fr a b t E Hh Hp) as [H1 H2].
    split; [done|]. split; [apply new_item_written|]. by split.
  - intros Hfr. split.
    { rewrite dynamodb_add_subscriber_eq, crowded_table_answers. reflexivity. }
    split; [apply new_item_written|]. split; [exact Na|].
    rewrite dynamodb_is_subscribed_eq, Nb.
    rewrite (crowded_page_misses_new_item fr a "foo@bar.com" Hfr).
    + rewrite andb_false_r. reflexivity.
    + intros k. unfold other_subscriber. cbn [item_email]. discriminate.
Qed.

Lemma sample_fresh_for_crowd n : fresh_for sample_fresh (crowd n).
Proof.
  apply Forall_forall. intros i Hi. unfold crowd in Hi. cbn [items] in Hi.
  apply list_elem_of_fmap in Hi as (k & -> & _).
  unfold other_subscriber, sample_fresh. cbn [item_id uuid4]. discriminate.
Qed.

Lemma normalization_same_subscriber_witness :
  (∃ r, InMemory.is_subscribed "foo@bar.com" (<["foo@bar.com" := r]> ∅)
        = (Return true, <["foo@bar.com" := r]> ∅))
  ∧ DynamoDB.is_subscribed "foo@bar.com"
      (written sample_fresh "  Foo@BAR.com " empty_table)
    = (Return true, answered (written sample_fresh "  Foo@BAR.com " empty_table))
  ∧ DynamoDB.add_subscriber sample_fresh "  Foo@BAR.com " crowded_table
    = (Return true, written sample_fresh "  Foo@BAR.com " crowded_table)
  ∧ DynamoDB.is_subscribed "foo@bar.com"
      (written sample_fresh "  Foo@BAR.com " crowded_table)
    = (Return false, answered (written sample_fresh "  Foo@BAR.com " crowded_table)).
Proof.
  destruct (normalization_same_subscriber sample_fresh "  Foo@BAR.com " "foo@bar.com")
    as (_ & _ & Hmem & Hdyn & Hcrowd).
  - apply elem_of_cons. by left.
  - apply elem_of_cons. right. apply elem_of_cons. by left.
  - split; [|split].
    + destruct (Hmem ∅) as (r & _ & H). by exists r.
    + destruct (Hdyn empty_table) as (_ & _ & _ & H).
      { apply Forall_nil_2. }
      { unfold one_page. vm_compute. discriminate. }
      exact H.
    + destruct (Hcrowd (sample_fresh_for_crowd _)) as (H1 & _ & _ & H2).
      split; [exact H1 | exact H2].
Defined.

(** ** The storage factory *)

(** C8, as amended. The factory compares the lower-cased value of
    STORAGE_TYPE: it returns the volatile store when that is ["memory"];
    when it is ["dynamodb"] or the variable is unset it constructs the
    durable store and returns it, or raises what the construction
    raises; and it raises [ValueError] for every value whose lower-cased
    form is neither. *)
Theorem get_storage_by_lowercase
    (boto3_table : string → string → outcome Table) (env : gmap string string) :
  let table_name := getenv env "DYNAMODB_TABLE" "newsletter_subscribers" in
  let region := getenv env "AWS_REGION" "us-east-1" in
  let durable :=
    match boto3_table region table_name with
    | Return table => Return (DynamoDBStorage table_name table)
    | Raise e => Raise e
    end in
  (env !! "STORAGE_TYPE" = None → get_storage boto3_table env = durable)
  ∧ (∀ v, env !! "STORAGE_TYPE" = Some v →
       (Str.lower v = "memory" →
          get_storage boto3_table env = Return (InMemoryStorage ∅))
       ∧ (Str.lower v = "dynamodb" → get_storage boto3_table env = durable)
       ∧ (Str.lower v ≠ "memory" → Str.lower v ≠ "dynamodb" →
          get_storage boto3_table env
          = Raise (ValueError ("Unsupported storage type: " +:+ Str.lower v)))).
Proof.
  intros table_name region durable. subst durable table_name region.
  unfold get_storage, DynamoDBStorage_init. split.
  - intros Hnone.
    assert (getenv env "STORAGE_TYPE" "dynamodb" = "dynamodb") as ->.
    { unfold getenv. by rewrite Hnone. }
    done.
  - intros v Hv.
    assert (getenv env "STORAGE_TYPE" "dynamodb" = v) as ->.
    { unfold getenv. by rewrite Hv. }
    repeat split.
    + intros ->. done.
    + intros ->. done.
    + intros H1 H2. by rewrite !bool_decide_eq_false_2.
Qed.

(** The comparison is made on the lower-cased value. *)
Lemma upper_case_memory_accepted :
  "MEMORY" ≠ "memory" ∧ "MEMORY" ≠ "dynamodb"
  ∧ get_storage sample_boto3 {["STORAGE_TYPE" := "MEMORY"]}
    = Return (InMemoryStorage ∅).
Proof. split; [done|]. split; [done|]. reflexivity. Qed.

Lemma get_storage_by_lowercase_witness :
  get_storage sample_boto3 {["STORAGE_TYPE" := "Memory"]}
  = Return (InMemoryStorage ∅)
  ∧ get_storage sample_boto3 {["STORAGE_TYPE" := "DynamoDB"]}
    = Return (DynamoDBStorage "newsletter_subscribers" empty_table)
  ∧ get_storage sample_boto3 {["AWS_REGION" := ""]}
    = Raise (ValueError "Invalid endpoint: https://dynamodb..amazonaws.com").
Proof.
  split; [|split].
  - destruct (get_storage_by_lowercase sample_boto3
                {["STORAGE_TYPE" := "Memory"]}) as [_ H].
    destruct (H "Memory") as (Hm & _); [reflexivity|].
    apply Hm. reflexivity.
  - destruct (get_storage_by_lowercase sample_boto3
                {["STORAGE_TYPE" := "DynamoDB"]}) as [_ H].
    destruct (H "DynamoDB") as (_ & Hd & _); [reflexivity|].
    apply Hd. reflexivity.
  - destruct (get_storage_by_lowercase sample_boto3
                {["AWS_REGION" := ""]}) as [H _].
    apply H. reflexivity.
Defined.

(** ** The adapters *)

(** Case analysis along the branches of an adapter. *)
Ltac clash_valid :=
  match goal with
  | H : is_valid_email ?e = _, H' : negb (is_valid_email ?e) = _ |- _ =>
      rewrite H in H'; discriminate H'
  end.

Ltac by_cases :=
  repeat (case_match; simplify_eq/=; try done; try clash_valid).

Lemma is_subscribed_returns email st :
  ∃ b st', is_subscribed email st = (Return b, st').
Proof.
  destruct st as [subs | name t]; simpl.
  - by eexists _, _.
  - destruct (dynamodb_is_subscribed_returns email t) as (b & t' & ->).
    by eexists _, _.
Qed.

Lemma add_subscriber_returns fr email st :
  ∃ b st', add_subscriber fr email st = (Return b, st').
Proof.
  destruct st as [subs | name t]; simpl.
  - by eexists _, _.
  - destruct (dynamodb_add_subscriber_returns fr email t) as (b & t' & ->).
    by eexists _, _.
Qed.

Lemma valid_email_of_Some json_data email :
  valid_email_of json_data = Some email →
  ∃ d, json_data = PDict d ∧ dict_lookup "email" d = Some (PStr email)
       ∧ is_valid_email (Str.strip email) = true.
Proof.
  unfold valid_email_of. intros H.
  destruct json_data as [| | | | |l|d]; try done.
  destruct (dict_lookup "email" d) as [[| | | |s| |]|] eqn:E; try done.
  destruct (is_valid_email (Str.strip s)) eqn:V; [|done].
  injection H as ->. by exists d.
Qed.

(** A request that passes validation is handed to the storage: first
    [is_subscribed], then [add_subscriber] when that answered false. *)
Lemma lambda_handler_valid json fr event context w email :
  event_email json event = Some email →
  lambda_handler json fr event context w =
    match call_is_subscribed email w with
    | (Return true, w1) =>
        (Return (format_response json (success_payload
           "You are already subscribed to the newsletter") 200), w1)
    | (Return false, w1) =>
        match call_add_subscriber fr email w1 with
        | (Return true, w2) =>
            (Return (format_response json (success_payload
               "Successfully subscribed to the newsletter") 201), w2)
        | (_, w2) =>
            (Return (format_response json (error_payload
               "Failed to process subscription") 500), w2)
        end
    | (Raise _, w1) =>
        (Return (format_response json (error_payload
           "Failed to process subscription") 500), w1)
    end.
Proof.
  intros H.
  unfold lambda_handler, event_email, event_body, valid_email_of,
    py_contains, py_getitem, dict_contains, dict_get in *.
  by_cases.
Qed.

(** A request that fails validation, or whose envelope cannot be read,
    is answered without touching the storage. *)
Lemma lambda_handler_invalid json fr event context w :
  event_email json event = None →
  ∃ r, lambda_handler json fr event context w = (Return r, w)
     ∧ (envelope_fault json event = true →
          r = format_response json (error_payload "Internal server error") 500)
     ∧ (envelope_fault json event = false →
          ∃ msg, r = format_response json (error_payload msg) 400).
Proof.
  intros H.
  unfold lambda_handler, event_email, event_body, valid_email_of, envelope_fault,
    py_contains, py_getitem, dict_contains, dict_get in *.
  by_cases;
    (eexists; split; [reflexivity|]; split; [done|];
     first [done | intros _; by eexists]).
Qed.

Lemma subscribe_newsletter_valid fr request w email :
  request_email request = Some email →
  subscribe_newsletter fr request w =
    match call_is_subscribed email w with
    | (Return true, w1) =>
        (Return (Some (jsonify (success_payload
           "You are already subscribed to the newsletter"), 200%Z)), w1)
    | (Return false, w1) =>
        match call_add_subscriber fr email w1 with
        | (Return true, w2) =>
            (Return (Some (jsonify (success_payload
               "Successfully subscribed to the newsletter"), 201%Z)), w2)
        | (Return false, w2) => (Return None, w2)
        | (Raise _, w2) =>
            (Return (Some (jsonify (error_payload
               "Failed to process subscription"), 500%Z)), w2)
        end
    | (Raise _, w1) =>
        (Return (Some (jsonify (error_payload
           "Failed to process subscription"), 500%Z)), w1)
    end.
Proof.
  intros H.
  unfold subscribe_newsletter, request_email, valid_email_of,
    dict_contains, dict_get in *.
  by_cases.
Qed.

Lemma subscribe_newsletter_invalid fr request w :
  request_email request = None →
  ∃ r, subscribe_newsletter fr request w = (r, w)
     ∧ ((∃ msg status, r = Return (Some (jsonify (error_payload msg), status))
            ∧ (status = 400%Z ∨ status = 415%Z)
            ∧ (status = 415%Z ↔ is_json request = false))
        ∨ (∃ e, e ≠ BadRequest ∧ get_json request = Raise e ∧ r = Raise e)).
Proof.
  intros H.
  unfold subscribe_newsletter, request_email, valid_email_of,
    dict_contains, dict_get in *.
  by_cases;
    (eexists; split; [reflexivity|];
     first [ by (right; eexists; repeat split)
           | left; eexists _, _; split; [reflexivity|]; split;
             [ by auto | split; by intros ] ]).
Qed.

(** The calls of a valid request: one [is_subscribed], then one
    [add_subscriber] exactly when the first answered false. *)
Lemma calls_after_is_subscribed email w :
  ∃ b st, is_subscribed email (storage w) = (Return b, st)
    ∧ call_is_subscribed email w
      = (Return b, {| storage := st; calls := calls w ++ [IsSubscribed email] |}).
Proof.
  destruct (is_subscribed_returns email (storage w)) as (b & st & E).
  exists b, st. split; [done|]. unfold call_is_subscribed. by rewrite E.
Qed.

Lemma calls_after_add_subscriber fr email w :
  ∃ b st, add_subscriber fr email (storage w) = (Return b, st)
    ∧ call_add_subscriber fr email w
      = (Return b, {| storage := st; calls := calls w ++ [AddSubscriber email] |}).
Proof.
  destruct (add_subscriber_returns fr email (storage w)) as (b & st & E).
  exists b, st. split; [done|]. unfold call_add_subscriber. by rewrite E.
Qed.

Lemma lambda_handler_calls json fr event context w email :
  event_email json event = Some email →
  ∃ b st r w',
    is_subscribed email (storage w) = (Return b, st)
    ∧ lambda_handler json fr event context w = (Return r, w')
    ∧ calls w' = (calls w ++ IsSubscribed email ::
                   (if b then [] else [AddSubscriber email]))%list.
Proof.
  intros H. rewrite (lambda_handler_valid _ _ _ _ _ _ H).
  destruct (calls_after_is_subscribed email w) as (b & st & E & ->).
  exists b, st. destruct b.
  - eexists _, _. split; [done|]. split; [done|]. done.
  - match goal with |- context [call_add_subscriber fr email ?w1] =>
      destruct (calls_after_add_subscriber fr email w1) as (b' & st' & _ & ->)
    end.
    destruct b'; eexists _, _; (split; [done|]; split; [done|]);
      simpl; by rewrite <- app_assoc.
Qed.

Lemma subscribe_newsletter_calls fr request w email :
  request_email request = Some email →
  ∃ b st r w',
    is_subscribed email (storage w) = (Return b, st)
    ∧ subscribe_newsletter fr request w = (Return r, w')
    ∧ calls w' = (calls w ++ IsSubscribed email ::
                   (if b then [] else [AddSubscriber email]))%list.
Proof.
  intros H. rewrite (subscribe_newsletter_valid _ _ _ _ H).
  destruct (calls_after_is_subscribed email w) as (b & st & E & ->).
  exists b, st. destruct b.
  - eexists _, _. split; [done|]. split; [done|]. done.
  - match goal with |- context [call_add_subscriber fr email ?w1] =>
      destruct (calls_after_add_subscriber fr email w1) as (b' & st' & _ & ->)
    end.
    destruct b'; eexists _, _; (split; [done|]; split; [done|]);
      simpl; by rewrite <- app_assoc.
Qed.

(** C10. An event on which ['body' in event] is not defined (an integer,
    [None], a boolean, a float) is answered with status 500 and the body
    [{"error": "Internal server error"}], and the storage is not touched;
    a list or a string in which ['body'] does not occur is instead
    answered 400, "Request body must be a JSON object". *)
Theorem non_container_event_is_internal_error (json : Json) (fr : Fresh)
    (event context : pyval) (w : World) :
  supports_membership event = false →
  lambda_handler json fr event context w
  = (Return {| statusCode := 500;
                headers := [("Content-Type", "application/json");
                            ("Access-Control-Allow-Origin", "*")];
                body := json_dumps json (error_payload "Internal server error") |}, w)
  ∧ (∀ other, py_contains "body" other = Return false →
       (∀ d, other ≠ PDict d) →
       lambda_handler json fr other context w
       = (Return {| statusCode := 400;
                     headers := [("Content-Type", "application/json");
                                 ("Access-Control-Allow-Origin", "*")];
                     body := json_dumps json
                               (error_payload "Request body must be a JSON object") |}, w)).
Proof.
  intros H. split.
  - by destruct event.
  - intros other Hc Hd. destruct other; simplify_eq/=;
      unfold lambda_handler, py_contains; try rewrite Hc; try done.
    by destruct (Hd d).
Qed.

Lemma non_container_event_is_internal_error_witness :
  lambda_handler strict_json sample_fresh (PInt 5) PNone memory_world
  = (Return {| statusCode := 500;
                headers := [("Content-Type", "application/json");
                            ("Access-Control-Allow-Origin", "*")];
                body := json_dumps strict_json
                          (error_payload "Internal server error") |}, memory_world)
  ∧ lambda_handler strict_json sample_fresh (PList [PInt 1; PInt 2]) PNone memory_world
    = (Return {| statusCode := 400;
                  headers := [("Content-Type", "application/json");
                              ("Access-Control-Allow-Origin", "*")];
                  body := json_dumps strict_json
                            (error_payload "Request body must be a JSON object") |}, memory_world).
Proof.
  destruct (non_container_event_is_internal_error strict_json sample_fresh
              (PInt 5) PNone memory_world eq_refl) as [H1 H2].
  split; [exact H1|]. apply H2; [reflexivity | discriminate].
Defined.

(** C5. Whatever the event, [lambda_handler] raises nothing: it returns
    a response with a status code, the two fixed headers and a
    JSON-encoded body, and an event whose envelope cannot be read is
    answered with status 500. *)
Theorem lambda_handler_always_responds (json : Json) (fr : Fresh)
    (event context : pyval) (w : World) :
  ∃ (status : Z) (payload : pyval) (w' : World),
    lambda_handler json fr event context w
    = (Return {| statusCode := status;
                 headers := [("Content-Type", "application/json");
                             ("Access-Control-Allow-Origin", "*")];
                 body := json_dumps json payload |}, w')
    ∧ status ∈ [200%Z; 201%Z; 400%Z; 500%Z]
    ∧ (envelope_fault json event = true →
         status = 500%Z ∧ payload = error_payload "Internal server error").
Proof.
  destruct (event_email json event) as [email|] eqn:E.
  - assert (envelope_fault json event = false) as ->.
    { unfold event_email, event_body, envelope_fault, valid_email_of in *. by_cases. }
    rewrite (lambda_handler_valid _ _ _ _ _ _ E).
    destruct (calls_after_is_subscribed email w) as (b & st & _ & ->).
    destruct b.
    + eexists _, _, _. split; [reflexivity|]. split; [|done]. set_solver.
    + match goal with |- context [call_add_subscriber fr email ?w1] =>
        destruct (calls_after_add_subscriber fr email w1) as (b' & st' & _ & ->)
      end.
      destruct b'; eexists _, _, _; (split; [reflexivity|]; split; [|done]);
        set_solver.
  - destruct (lambda_handler_invalid json fr event context w E) as (r & -> & Ht & Hf).
    destruct (envelope_fault json event).
    + rewrite (Ht eq_refl). eexists _, _, _. split; [reflexivity|].
      split; [set_solver | done].
    + destruct (Hf eq_refl) as (msg & ->). eexists _, _, _.
      split; [reflexivity|]. split; [set_solver | done].
Qed.

(** C2. Against a fresh volatile store, two requests in sequence whose
    valid emails normalize alike are answered 201 (subscribed) and then
    200 (already subscribed), by the event adapter and by the HTTP
    adapter alike, and afterwards the store holds exactly one record,
    under the normalized email. *)
Theorem subscribe_twice_is_idempotent (json : Json) (fr1 fr2 : Fresh)
    (ev1 ev2 ctx1 ctx2 : pyval) (rq1 rq2 : Request) (e1 e2 : string) :
  normalize e1 = normalize e2 →
  let r := {| sub_id := uuid4 fr1; sub_subscribed_at := utcnow fr1;
              sub_status := "active" |} in
  let w1 := {| storage := InMemoryStorage {[normalize e1 := r]};
               calls := [IsSubscribed e1; AddSubscriber e1] |} in
  let w2 := {| storage := InMemoryStorage {[normalize e1 := r]};
               calls := [IsSubscribed e1; AddSubscriber e1; IsSubscribed e2] |} in
  (event_email json ev1 = Some e1 → event_email json ev2 = Some e2 →
     lambda_handler json fr1 ev1 ctx1 memory_world
     = (Return {| statusCode := 201;
                   headers := [("Content-Type", "application/json");
                               ("Access-Control-Allow-Origin", "*")];
                   body := json_dumps json
                             (success_payload "Successfully subscribed to the newsletter") |}, w1)
     ∧ lambda_handler json fr2 ev2 ctx2 w1
       = (Return {| statusCode := 200;
                     headers := [("Content-Type", "application/json");
                                 ("Access-Control-Allow-Origin", "*")];
                     body := json_dumps json
                               (success_payload "You are already subscribed to the newsletter") |}, w2))
  ∧ (request_email rq1 = Some e1 → request_email rq2 = Some e2 →
       subscribe_newsletter fr1 rq1 memory_world
       = (Return (Some (jsonify (success_payload
            "Successfully subscribed to the newsletter"), 201%Z)), w1)
       ∧ subscribe_newsletter fr2 rq2 w1
         = (Return (Some (jsonify (success_payload
              "You are already subscribed to the newsletter"), 200%Z)), w2))
  ∧ size ({[normalize e1 := r]} : gmap string Subscriber) = 1%nat
  ∧ ({[normalize e1 := r]} : gmap string Subscriber) !! normalize e2 = Some r.
Proof.
  intros E r w1 w2.
  assert (H1 : call_is_subscribed e1 memory_world
               = (Return false, {| storage := InMemoryStorage ∅;
                                   calls := [IsSubscribed e1] |})).
  { unfold call_is_subscribed. simpl. unfold InMemory.is_subscribed.
    rewrite lookup_empty. by rewrite bool_decide_eq_false_2; [|apply is_Some_None]. }
  assert (H2 : call_add_subscriber fr1 e1
                 {| storage := InMemoryStorage ∅; calls := [IsSubscribed e1] |}
               = (Return true, w1)).
  { unfold call_add_subscriber. simpl. unfold InMemory.add_subscriber.
    fold (normalize e1). by rewrite insert_empty. }
  assert (H3 : call_is_subscribed e2 w1 = (Return true, w2)).
  { unfold call_is_subscribed. simpl. unfold InMemory.is_subscribed.
    fold (normalize e2). rewrite <- E, lookup_singleton_eq.
    by rewrite bool_decide_eq_true_2. }
  repeat split.
  - rewrite (lambda_handler_valid _ _ _ _ _ _ H). by rewrite H1, H2.
  - rewrite (lambda_handler_valid _ _ _ _ _ _ H0). by rewrite H3.
  - rewrite (subscribe_newsletter_valid _ _ _ _ H). by rewrite H1, H2.
  - rewrite (subscribe_newsletter_valid _ _ _ _ H0). by rewrite H3.
  - apply map_size_singleton.
  - rewrite <- E. apply lookup_singleton_eq.
Qed.

Lemma subscribe_twice_is_idempotent_witness :
  let ev := PDict [("email", PStr "a@b.com")] in
  ∃ w1 w2,
    lambda_handler strict_json sample_fresh ev PNone memory_world
    = (Return {| statusCode := 201;
                  headers := [("Content-Type", "application/json");
                              ("Access-Control-Allow-Origin", "*")];
                  body := json_dumps strict_json
                            (success_payload "Successfully subscribed to the newsletter") |}, w1)
    ∧ lambda_handler strict_json sample_fresh ev PNone w1
      = (Return {| statusCode := 200;
                    headers := [("Content-Type", "application/json");
                                ("Access-Control-Allow-Origin", "*")];
                    body := json_dumps strict_json
                              (success_payload "You are already subscribed to the newsletter") |}, w2).
Proof.
  intros ev.
  destruct (subscribe_twice_is_idempotent strict_json sample_fresh sample_fresh
              ev ev PNone PNone
              {| is_json := true; get_json := Return ev |}
              {| is_json := true; get_json := Return ev |}
              "a@b.com" "a@b.com" eq_refl) as (Hev & _).
  destruct (Hev eq_refl eq_refl) as [H1 H2].
  eexists _, _. split; [exact H1 | exact H2].
Defined.

(** C1, the code at a failing input. The request is valid and the email
    new, and the table serves the scan but fails the insert, so
    [add_subscriber] returns false: the view logs the failure and ends
    without a return statement, so its value is [None] and not the pair
    of [{"error": "Failed to process subscription"}] and 500 that the
    event adapter returns on the same input. *)
Theorem flask_storage_failure_returns_None :
  let request := {| is_json := true;
                    get_json := Return (PDict [("email", PStr "a@b.com")]) |} in
  let failing := {| items := [];
                    pending := [None; Some (OtherException "ClientError")] |} in
  let w := {| storage := DynamoDBStorage "newsletter_subscribers" failing;
              calls := [] |} in
  let w' := {| storage := DynamoDBStorage "newsletter_subscribers" empty_table;
               calls := [IsSubscribed "a@b.com"; AddSubscriber "a@b.com"] |} in
  request_email request = Some "a@b.com"
  ∧ is_subscribed "a@b.com" (storage w)
    = (Return false, DynamoDBStorage "newsletter_subscribers"
         {| items := []; pending := [Some (OtherException "ClientError")] |})
  ∧ add_subscriber sample_fresh "a@b.com"
      (DynamoDBStorage "newsletter_subscribers"
         {| items := []; pending := [Some (OtherException "ClientError")] |})
    = (Return false, DynamoDBStorage "newsletter_subscribers" empty_table)
  ∧ subscribe_newsletter sample_fresh request w = (Return None, w')
  ∧ lambda_handler strict_json sample_fresh
      (PDict [("email", PStr "a@b.com")]) PNone w
    = (Return (format_response strict_json
         (error_payload "Failed to process subscription") 500), w').
Proof. repeat split. Qed.

(** C7, as amended. A request whose body fails validation is answered
    without any storage call and with the storage unchanged: by the HTTP
    adapter with 400, or 415 exactly when the content type is not JSON;
    by the event adapter with 400 when it reads the envelope, and with
    500 "Internal server error" when the event is no container at all
    ([None], a boolean, a number). Whatever the request and the answer,
    a request that yields no valid email leaves the storage and its log
    as they were, and the calls a request adds to the log hold one
    [add_subscriber] exactly when the request passed validation and
    [is_subscribed] answered false, and none otherwise. *)
Theorem invalid_requests_leave_storage_alone (json : Json) (fr : Fresh)
    (request : Request) (event context : pyval) (w : World) :
  (request_defect request →
     ∃ msg status,
       subscribe_newsletter fr request w
       = (Return (Some (jsonify (error_payload msg), status)), w)
       ∧ (status = 400%Z ∨ status = 415%Z)
       ∧ (status = 415%Z ↔ is_json request = false))
  ∧ (event_email json event = None → envelope_fault json event = false →
       ∃ msg,
         lambda_handler json fr event context w
         = (Return {| statusCode := 400;
                       headers := [("Content-Type", "application/json");
                                   ("Access-Control-Allow-Origin", "*")];
                       body := json_dumps json (error_payload msg) |}, w))
  ∧ (supports_membership event = false →
       lambda_handler json fr event context w
       = (Return {| statusCode := 500;
                     headers := [("Content-Type", "application/json");
                                 ("Access-Control-Allow-Origin", "*")];
                     body := json_dumps json
                               (error_payload "Internal server error") |}, w))
  ∧ (request_email request = None →
       (subscribe_newsletter fr request w).2 = w)
  ∧ (event_email json event = None →
       (lambda_handler json fr event context w).2 = w)
  ∧ (∃ r w' new,
       subscribe_newsletter fr request w = (r, w')
       ∧ calls w' = (calls w ++ new)%list
       ∧ (add_calls new ≤ 1)%nat
       ∧ (add_calls new = 1%nat ↔
            ∃ email st, request_email request = Some email
              ∧ is_subscribed email (storage w) = (Return false, st)))
  ∧ (∃ r w' new,
       lambda_handler json fr event context w = (r, w')
       ∧ calls w' = (calls w ++ new)%list
       ∧ (add_calls new ≤ 1)%nat
       ∧ (add_calls new = 1%nat ↔
            ∃ email st, event_email json event = Some email
              ∧ is_subscribed email (storage w) = (Return false, st))).
Proof.
  split; [|split; [|split; [|split; [|split; [|split]]]]].
  - intros Hd.
    assert (E : request_email request = None).
    { unfold request_email.
      destruct Hd as [-> | [[-> ->] | [-> (v & -> & Hv)]]]; done. }
    destruct (subscribe_newsletter_invalid fr request w E)
      as (r & Hr & [(msg & status & -> & Hs) | (e & Hne & Hg & ->)]).
    + by exists msg, status.
    + exfalso. destruct Hd as [Hj | [[Hj Hb] | [Hj (v & Hv & _)]]].
      * unfold subscribe_newsletter in Hr. rewrite Hj in Hr. done.
      * rewrite Hb in Hg. by injection Hg as <-.
      * by rewrite Hv in Hg.
  - intros E Hf.
    destruct (lambda_handler_invalid json fr event context w E) as (r & -> & _ & H).
    destruct (H Hf) as (msg & ->). by exists msg.
  - intros H. by destruct event.
  - intros E.
    by destruct (subscribe_newsletter_invalid fr request w E) as (r & -> & _).
  - intros E.
    by destruct (lambda_handler_invalid json fr event context w E) as (r & -> & _).
  - destruct (request_email request) as [email|] eqn:E.
    + destruct (subscribe_newsletter_calls fr request w email E)
        as (b & st & r & w' & Hs & -> & Hc).
      eexists _, _, _. split; [done|]. split; [exact Hc|].
      destruct b; simpl; (split; [unfold add_calls; simpl; lia|]).
      * split; [done|]. intros (email' & st' & [= <-] & Hs'). congruence.
      * split; [|done]. intros _. by exists email, st.
    + destruct (subscribe_newsletter_invalid fr request w E) as (r & -> & _).
      exists r, w, []. split; [done|]. split; [by rewrite app_nil_r|].
      split; [unfold add_calls; simpl; lia|].
      split; [done|]. by intros (email & st & ? & _).
  - destruct (event_email json event) as [email|] eqn:E.
    + destruct (lambda_handler_calls json fr event context w email E)
        as (b & st & r & w' & Hs & -> & Hc).
      eexists _, _, _. split; [done|]. split; [exact Hc|].
      destruct b; simpl; (split; [unfold add_calls; simpl; lia|]).
      * split; [done|]. intros (email' & st' & [= <-] & Hs'). congruence.
      * split; [|done]. intros _. by exists email, st.
    + destruct (lambda_handler_invalid json fr event context w E) as (r & -> & _).
      exists (Return r), w, []. split; [done|]. split; [by rewrite app_nil_r|].
      split; [unfold add_calls; simpl; lia|].
      split; [done|]. by intros (email & st & ? & _).
Qed.

Lemma invalid_requests_leave_storage_alone_witness :
  (∃ msg status,
     subscribe_newsletter sample_fresh
       {| is_json := true; get_json := Return (PList [PInt 1; PInt 2]) |}
       memory_world
     = (Return (Some (jsonify (error_payload msg), status)), memory_world)
     ∧ (status = 400%Z ∨ status = 415%Z))
  ∧ (∃ msg,
       lambda_handler strict_json sample_fresh (PDict [("email", PInt 123)]) PNone
         memory_world
       = (Return {| statusCode := 400;
                     headers := [("Content-Type", "application/json");
                                 ("Access-Control-Allow-Origin", "*")];
                     body := json_dumps strict_json
                               (error_payload msg) |}, memory_world)).
Proof.
  destruct (invalid_requests_leave_storage_alone strict_json sample_fresh
              {| is_json := true; get_json := Return (PList [PInt 1; PInt 2]) |}
              (PDict [("email", PInt 123)]) PNone memory_world)
    as (Hrq & Hev & _).
  split.
  - destruct Hrq as (msg & status & H & Hs & _).
    { right. right. split; [reflexivity|]. eexists. split; reflexivity. }
    by exists msg, status.
  - destruct (Hev eq_refl eq_refl) as (msg & H). by exists msg.
Defined.

(** An event that is an integer is no object, and is answered 500. *)
Lemma integer_event_answered_500 :
  event_email strict_json (PInt 5) = None
  ∧ ∃ r, lambda_handler strict_json sample_fresh (PInt 5) PNone memory_world
         = (Return r, memory_world)
       ∧ statusCode r = 500%Z
       ∧ statusCode r ≠ 400%Z ∧ statusCode r ≠ 415%Z.
Proof. split; [reflexivity|]. eexists. repeat split; done. Qed.
(** * Further properties of the code *)

(** ** Normalization ([email.lower().strip()], [email.strip()]) *)

Lemma isspace_lower_char c : Str.isspace (Str.lower_char c) = Str.isspace c.
Proof. destruct c as [[] [] [] [] [] [] [] []]; reflexivity. Qed.

Lemma lower_char_idemp c : Str.lower_char (Str.lower_char c) = Str.lower_char c.
Proof. destruct c as [[] [] [] [] [] [] [] []]; reflexivity. Qed.

Lemma lstrip_map_lower l :
  Str.lstrip_chars (map Str.lower_char l) = map Str.lower_char (Str.lstrip_chars l).
Proof.
  induction l as [|c l IH]; simpl; [done|].
  rewrite isspace_lower_char. by destruct (Str.isspace c).
Qed.

Lemma rstrip_map_lower l :
  Str.rstrip_chars (map Str.lower_char l) = map Str.lower_char (Str.rstrip_chars l).
Proof.
  unfold Str.rstrip_chars. by rewrite <- map_rev, lstrip_map_lower, map_rev.
Qed.

Lemma strip_lower_commute s : Str.strip (Str.lower s) = Str.lower (Str.strip s).
Proof.
  unfold Str.strip, Str.lower. rewrite !chars_of_chars.
  by rewrite lstrip_map_lower, rstrip_map_lower.
Qed.

Lemma strip_idemp s : Str.strip (Str.strip s) = Str.strip s.
Proof.
  unfold Str.strip. rewrite chars_of_chars. f_equal.
  apply strip_fixed, strip_trimmed.
Qed.

Lemma lower_idemp s : Str.lower (Str.lower s) = Str.lower s.
Proof.
  unfold Str.lower. rewrite chars_of_chars, map_map. f_equal.
  apply map_ext. intros c. apply lower_char_idemp.
Qed.

Lemma normalize_fixed email : normalize (normalize email) = normalize email.
Proof.
  unfold normalize. rewrite (strip_lower_commute (Str.strip _)), strip_idemp.
  rewrite <- strip_lower_commute. by rewrite lower_idemp.
Qed.

(** ** The validator *)

Lemma match_at_least_map (f : ascii → ascii) a k k' l : ∀ min pos,
  (∀ c, Re.atom_matches a (f c) = Re.atom_matches a c) →
  (∀ pos' l', k pos' (map f l') = k' pos' l') →
  Re.match_at_least a k min pos (map f l) = Re.match_at_least a k' min pos l.
Proof.
  induction l as [|c l IH]; intros min pos Ha Hk; simpl.
  - f_equal. apply (Hk pos []).
  - rewrite Ha, IH by done. do 2 f_equal. apply (Hk pos (c :: l)).
Qed.

Lemma at_end_map_lower l : Re.at_end (map Str.lower_char l) = Re.at_end l.
Proof.
  destruct l as [|c [|c' l]]; simpl; try done.
  destruct c as [[] [] [] [] [] [] [] []]; reflexivity.
Qed.

Lemma match_here_map_lower p :
  Forall case_blind p →
  ∀ pos l, Re.match_here p pos (map Str.lower_char l) = Re.match_here p pos l.
Proof.
  induction 1 as [|n p Hn Hp IH]; intros pos l; [done|].
  destruct n as [| |a|min a]; simpl.
  - by rewrite IH.
  - by rewrite at_end_map_lower, IH.
  - destruct l as [|c l]; simpl; [done|]. by rewrite Hn, IH.
  - by apply match_at_least_map.
Qed.

Lemma pattern_case_blind : Forall case_blind pattern.
Proof.
  unfold pattern. repeat apply Forall_cons_2; try exact I; try apply Forall_nil_2;
    intros c; destruct c as [[] [] [] [] [] [] [] []]; reflexivity.
Qed.

Lemma matches_lower p s :
  Forall case_blind p → Re.matches p (Str.lower s) = Re.matches p s.
Proof.
  intros Hp. unfold Re.matches, Str.lower. rewrite chars_of_chars.
  by apply match_here_map_lower.
Qed.

Lemma local_char_not_space c : local_char c = true → Str.isspace c = false.
Proof. destruct c as [[] [] [] [] [] [] [] []]; done. Qed.
Lemma domain_char_not_space c : domain_char c = true → Str.isspace c = false.
Proof. destruct c as [[] [] [] [] [] [] [] []]; done. Qed.
Lemma alpha_char_not_space c : alpha_char c = true → Str.isspace c = false.
Proof. destruct c as [[] [] [] [] [] [] [] []]; done. Qed.
Lemma local_char_not_at c : local_char c = true → c ≠ "@"%char.
Proof. destruct c as [[] [] [] [] [] [] [] []]; done. Qed.
Lemma domain_char_not_at c : domain_char c = true → c ≠ "@"%char.
Proof. destruct c as [[] [] [] [] [] [] [] []]; done. Qed.
Lemma alpha_char_not_at c : alpha_char c = true → c ≠ "@"%char.
Proof. destruct c as [[] [] [] [] [] [] [] []]; done. Qed.

Lemma Forall_not_elem (P : ascii → bool) (x : ascii) l :
  (∀ c, P c = true → c ≠ x) → Forall (λ c, P c = true) l → x ∉ l.
Proof.
  intros HP Hl Hin. rewrite Forall_forall in Hl.
  by apply (HP x (Hl x Hin)).
Qed.

(** X3. On a trimmed string, which is what both adapters pass, the
    validator accepts exactly the email grammar; an accepted string then
    holds no white space, exactly one [@], and at least six
    characters. *)
Theorem is_valid_email_of_stripped (email : string) :
  (is_valid_email (Str.strip email) = true ↔ email_grammar (Str.strip email))
  ∧ (is_valid_email (Str.strip email) = true →
       Forall (λ c, Str.isspace c = false) (Str.chars (Str.strip email))
       ∧ (∃ pre post, Str.chars (Str.strip email) = (pre ++ "@"%char :: post)%list
            ∧ ("@"%char ∉ pre) ∧ ("@"%char ∉ post))
       ∧ (6 ≤ length (Str.chars (Str.strip email)))%nat).
Proof.
  split; [apply valid_stripped_iff_grammar|].
  intros (loc & dom & tld & -> & Hn1 & Hloc & Hn2 & Hdom & Hn3 & Htld)
    %valid_stripped_iff_grammar.
  split; [|split].
  - apply Forall_app. split.
    { eapply Forall_impl; [exact Hloc|]. apply local_char_not_space. }
    apply Forall_cons. split; [done|]. apply Forall_app. split.
    { eapply Forall_impl; [exact Hdom|]. apply domain_char_not_space. }
    apply Forall_cons. split; [done|].
    eapply Forall_impl; [exact Htld|]. apply alpha_char_not_space.
  - exists loc, (dom ++ "."%char :: tld)%list. split; [done|]. split.
    + apply (Forall_not_elem local_char); [apply local_char_not_at | done].
    + intros [Hin | Hin]%elem_of_app.
      * revert Hin. apply (Forall_not_elem domain_char); [|done].
        apply domain_char_not_at.
      * apply elem_of_cons in Hin as [Hin | Hin]; [done|].
        revert Hin. apply (Forall_not_elem alpha_char); [|done].
        apply alpha_char_not_at.
  - rewrite length_app. simpl. rewrite length_app. simpl. lia.
Qed.

Lemma is_valid_email_of_stripped_witness :
  Forall (λ c, Str.isspace c = false) (Str.chars (Str.strip "  Foo@BAR.com ")).
Proof.
  destruct (is_valid_email_of_stripped "  Foo@BAR.com ") as [_ H].
  destruct (H eq_refl) as [Hs _]. exact Hs.
Defined.

Lemma normalized_key_valid email :
  is_valid_email (Str.strip email) = true →
  is_valid_email (normalize email) = true.
Proof.
  intros Hv. rewrite <- Hv. unfold normalize, is_valid_email.
  rewrite strip_lower_commute. apply matches_lower, pattern_case_blind.
Qed.

(** X4. When an email passes the adapters' validation, which is made on
    the trimmed string, the key under which the storage files it is
    itself accepted by the validator and matches the email grammar. *)
Theorem stored_key_is_valid (email : string) :
  is_valid_email (Str.strip email) = true →
  is_valid_email (normalize email) = true
  ∧ email_grammar (normalize email)
  ∧ normalize (normalize email) = normalize email.
Proof.
  intros Hv. pose proof (normalized_key_valid email Hv) as Hk.
  split; [done|]. split; [|apply normalize_fixed].
  assert (Hs : Str.strip (normalize email) = normalize email).
  { unfold normalize. by rewrite strip_idemp. }
  rewrite <- Hs. apply valid_stripped_iff_grammar. by rewrite Hs.
Qed.

Lemma stored_key_is_valid_witness :
  is_valid_email (normalize "  Foo@BAR.com ") = true.
Proof. destruct (stored_key_is_valid "  Foo@BAR.com " eq_refl) as [H _]. exact H. Defined.

(** ** Validation in the adapters *)

(** X5. Both adapters name the first defect of a decoded body, looking
    in the same order (object, [email] key, string, format), answer it
    with status 400 and leave the storage and its call log alone. *)
Theorem validation_errors_are_named (json : Json) (fr : Fresh)
    (request : Request) (event context json_data : pyval) (w : World)
    (msg : string) :
  validation_error json_data = Some msg →
  (is_json request = true → get_json request = Return json_data →
     subscribe_newsletter fr request w
     = (Return (Some (jsonify (error_payload msg), 400%Z)), w))
  ∧ (event_body json event = Some json_data →
     envelope_fault json event = false →
     lambda_handler json fr event context w
     = (Return {| statusCode := 400;
                   headers := [("Content-Type", "application/json");
                               ("Access-Control-Allow-Origin", "*")];
                   body := json_dumps json (error_payload msg) |}, w)).
Proof.
  intros H. split.
  - intros Hj Hg.
    unfold subscribe_newsletter, validation_error, dict_contains, dict_get in *.
    rewrite Hj, Hg. simpl. by_cases.
  - intros Hb Hf.
    unfold lambda_handler, validation_error, event_body, envelope_fault,
      py_contains, py_getitem, dict_contains, dict_get in *.
    by_cases.
Qed.

Lemma validation_errors_are_named_witness :
  lambda_handler strict_json sample_fresh (PDict [("email", PNone)]) PNone memory_world
  = (Return {| statusCode := 400;
                headers := [("Content-Type", "application/json");
                            ("Access-Control-Allow-Origin", "*")];
                body := json_dumps strict_json
                          (error_payload "Email must be a string") |}, memory_world).
Proof.
  destruct (validation_errors_are_named strict_json sample_fresh
              {| is_json := true; get_json := Return (PDict [("email", PNone)]) |}
              (PDict [("email", PNone)]) PNone (PDict [("email", PNone)])
              memory_world "Email must be a string" eq_refl) as [_ H].
  by apply H.
Defined.

(** X6. Requests without a usable body: the HTTP adapter answers a
    content type other than JSON with 415 and an undecodable body with
    400 "Invalid JSON format"; the event adapter answers a [body] that is
    [null] with 400 "Request body is required" and a [body] string that
    does not decode with 400 "Invalid JSON format". The storage is not
    touched. *)
Theorem unusable_bodies (json : Json) (fr : Fresh) (request : Request)
    (d : list (string * pyval)) (context : pyval) (w : World) :
  (is_json request = false →
     subscribe_newsletter fr request w
     = (Return (Some (jsonify (error_payload
          "Content-Type must be application/json"), 415%Z)), w))
  ∧ (is_json request = true → get_json request = Raise BadRequest →
     subscribe_newsletter fr request w
     = (Return (Some (jsonify (error_payload "Invalid JSON format"), 400%Z)), w))
  ∧ (dict_lookup "body" d = Some PNone →
     lambda_handler json fr (PDict d) context w
     = (Return {| statusCode := 400;
                   headers := [("Content-Type", "application/json");
                               ("Access-Control-Allow-Origin", "*")];
                   body := json_dumps json
                             (error_payload "Request body is required") |}, w))
  ∧ (∀ s, dict_lookup "body" d = Some (PStr s) →
     json_loads json s = Raise JSONDecodeError →
     lambda_handler json fr (PDict d) context w
     = (Return {| statusCode := 400;
                   headers := [("Content-Type", "application/json");
                               ("Access-Control-Allow-Origin", "*")];
                   body := json_dumps json
                             (error_payload "Invalid JSON format") |}, w)).
Proof.
  repeat split.
  - intros H. unfold subscribe_newsletter. by rewrite H.
  - intros H1 H2. unfold subscribe_newsletter. by rewrite H1, H2.
  - intros H. unfold lambda_handler, py_contains, py_getitem, dict_contains.
    by rewrite H.
  - intros s H1 H2. unfold lambda_handler, py_contains, py_getitem, dict_contains.
    by rewrite H1, H2.
Qed.

Lemma unusable_bodies_witness :
  lambda_handler strict_json sample_fresh (PDict [("body", PNone)]) PNone memory_world
  = (Return {| statusCode := 400;
                headers := [("Content-Type", "application/json");
                            ("Access-Control-Allow-Origin", "*")];
                body := json_dumps strict_json
                          (error_payload "Request body is required") |}, memory_world).
Proof.
  destruct (unusable_bodies strict_json sample_fresh
              {| is_json := false; get_json := Raise BadRequest |}
              [("body", PNone)] PNone memory_world) as (_ & _ & H & _).
  by apply H.
Defined.

(** ** The two adapters on the same body *)

(** X7. Given the same JSON object and the same storage, the event
    adapter (object under [body]) and the HTTP adapter make the same
    storage calls and end in the same state; the event adapter's status
    and payload are those of the HTTP view whenever the view returns a
    response, and where the view returns [None] the event adapter
    answers 500 "Failed to process subscription". The HTTP view raises
    nothing on a decoded body. *)
Theorem adapters_agree (json : Json) (fr : Fresh) (d : list (string * pyval))
    (context : pyval) (w : World) :
  let request := {| is_json := true; get_json := Return (PDict d) |} in
  let event := PDict [("body", PDict d)] in
  ∃ view w',
    subscribe_newsletter fr request w = (Return view, w')
    ∧ lambda_handler json fr event context w
      = (Return match view with
                | Some (jsonify payload, status) =>
                    {| statusCode := status;
                       headers := [("Content-Type", "application/json");
                                   ("Access-Control-Allow-Origin", "*")];
                       body := json_dumps json payload |}
                | None =>
                    {| statusCode := 500;
                       headers := [("Content-Type", "application/json");
                                   ("Access-Control-Allow-Origin", "*")];
                       body := json_dumps json
                                 (error_payload "Failed to process subscription") |}
                end, w').
Proof.
  intros request event.
  unfold subscribe_newsletter, lambda_handler, request, event,
    py_contains, py_getitem, dict_contains, dict_get. simpl.
  by_cases; by eexists _, _.
Qed.

(** X8. The event adapter handles one JSON object alike however it is
    delivered: as the event itself (when the object has no [body] key),
    as the [body] field, or as a [body] string that decodes to it. *)
Theorem event_deliveries_agree (json : Json) (fr : Fresh)
    (d envelope : list (string * pyval)) (s : string) (context : pyval)
    (w : World) :
  (dict_lookup "body" d = None →
     lambda_handler json fr (PDict d) context w
     = lambda_handler json fr (PDict [("body", PDict d)]) context w)
  ∧ (dict_lookup "body" envelope = Some (PStr s) →
     json_loads json s = Return (PDict d) →
     lambda_handler json fr (PDict envelope) context w
     = lambda_handler json fr (PDict [("body", PDict d)]) context w).
Proof.
  split.
  - intros H. unfold lambda_handler, py_contains, py_getitem, dict_contains.
    rewrite H. done.
  - intros H1 H2. unfold lambda_handler, py_contains, py_getitem, dict_contains.
    rewrite H1, H2. done.
Qed.

Lemma event_deliveries_agree_witness :
  lambda_handler strict_json sample_fresh (PDict [("email", PStr "a@b.com")])
    PNone memory_world
  = lambda_handler strict_json sample_fresh
      (PDict [("body", PDict [("email", PStr "a@b.com")])]) PNone memory_world.
Proof.
  destruct (event_deliveries_agree strict_json sample_fresh
              [("email", PStr "a@b.com")] [] "" PNone memory_world) as [H _].
  by apply H.
Defined.

(** ** The adapters on the volatile store *)

Lemma in_memory_is_subscribed e subs log :
  call_is_subscribed e {| storage := InMemoryStorage subs; calls := log |}
  = (Return (bool_decide (is_Some (subs !! normalize e))),
     {| storage := InMemoryStorage subs; calls := log ++ [IsSubscribed e] |}).
Proof. done. Qed.

Lemma in_memory_add_subscriber fr e subs log :
  call_add_subscriber fr e {| storage := InMemoryStorage subs; calls := log |}
  = (Return true,
     {| storage := InMemoryStorage (<[normalize e := new_subscriber fr]> subs);
        calls := log ++ [AddSubscriber e] |}).
Proof. done. Qed.

Lemma lambda_handler_in_memory json fr event context subs log e :
  event_email json event = Some e →
  lambda_handler json fr event context
    {| storage := InMemoryStorage subs; calls := log |}
  = if bool_decide (is_Some (subs !! normalize e)) then
      (Return (format_response json (success_payload
         "You are already subscribed to the newsletter") 200),
       {| storage := InMemoryStorage subs; calls := log ++ [IsSubscribed e] |})
    else
      (Return (format_response json (success_payload
         "Successfully subscribed to the newsletter") 201),
       {| storage := InMemoryStorage (<[normalize e := new_subscriber fr]> subs);
          calls := log ++ [IsSubscribed e; AddSubscriber e] |}).
Proof.
  intros H. rewrite (lambda_handler_valid _ _ _ _ _ _ H).
  rewrite in_memory_is_subscribed. case_bool_decide; [done|].
  rewrite in_memory_add_subscriber. by rewrite <- app_assoc.
Qed.

Lemma subscribe_newsletter_in_memory fr request subs log e :
  request_email request = Some e →
  subscribe_newsletter fr request
    {| storage := InMemoryStorage subs; calls := log |}
  = if bool_decide (is_Some (subs !! normalize e)) then
      (Return (Some (jsonify (success_payload
         "You are already subscribed to the newsletter"), 200%Z)),
       {| storage := InMemoryStorage subs; calls := log ++ [IsSubscribed e] |})
    else
      (Return (Some (jsonify (success_payload
         "Successfully subscribed to the newsletter"), 201%Z)),
       {| storage := InMemoryStorage (<[normalize e := new_subscriber fr]> subs);
          calls := log ++ [IsSubscribed e; AddSubscriber e] |}).
Proof.
  intros H. rewrite (subscribe_newsletter_valid _ _ _ _ H).
  rewrite in_memory_is_subscribed. case_bool_decide; [done|].
  rewrite in_memory_add_subscriber. by rewrite <- app_assoc.
Qed.

(** X9. On the volatile store a valid request has two outcomes only, in
    both adapters: 200 with the store as it was when the normalized
    email is a key of it, and else 201 with one record added under the
    normalized email. It is never answered with a storage failure. *)
Theorem in_memory_outcomes (json : Json) (fr : Fresh) (request : Request)
    (event context : pyval) (subs : gmap string Subscriber) (log : list Call)
    (e : string) :
  let w := {| storage := InMemoryStorage subs; calls := log |} in
  let same := {| storage := InMemoryStorage subs;
                 calls := log ++ [IsSubscribed e] |} in
  let more := {| storage := InMemoryStorage (<[normalize e := new_subscriber fr]> subs);
                 calls := log ++ [IsSubscribed e; AddSubscriber e] |} in
  (event_email json event = Some e →
     lambda_handler json fr event context w
     = if bool_decide (is_Some (subs !! normalize e)) then
         (Return {| statusCode := 200;
                     headers := [("Content-Type", "application/json");
                                 ("Access-Control-Allow-Origin", "*")];
                     body := json_dumps json
                               (success_payload "You are already subscribed to the newsletter") |}, same)
       else
         (Return {| statusCode := 201;
                     headers := [("Content-Type", "application/json");
                                 ("Access-Control-Allow-Origin", "*")];
                     body := json_dumps json
                               (success_payload "Successfully subscribed to the newsletter") |}, more))
  ∧ (request_email request = Some e →
     subscribe_newsletter fr request w
     = if bool_decide (is_Some (subs !! normalize e)) then
         (Return (Some (jsonify (success_payload
            "You are already subscribed to the newsletter"), 200%Z)), same)
       else
         (Return (Some (jsonify (success_payload
            "Successfully subscribed to the newsletter"), 201%Z)), more)).
Proof.
  intros w same more. split; intros H.
  - by apply lambda_handler_in_memory.
  - by apply subscribe_newsletter_in_memory.
Qed.

Lemma in_memory_outcomes_witness :
  lambda_handler strict_json sample_fresh (PDict [("email", PStr "a@b.com")]) PNone
    memory_world
  = (Return {| statusCode := 201;
                headers := [("Content-Type", "application/json");
                            ("Access-Control-Allow-Origin", "*")];
                body := json_dumps strict_json
                          (success_payload "Successfully subscribed to the newsletter") |},
     {| storage := InMemoryStorage (<["a@b.com" := new_subscriber sample_fresh]> ∅);
        calls := [IsSubscribed "a@b.com"; AddSubscriber "a@b.com"] |}).
Proof.
  destruct (in_memory_outcomes strict_json sample_fresh
              {| is_json := false; get_json := Raise BadRequest |}
              (PDict [("email", PStr "a@b.com")]) PNone ∅ [] "a@b.com") as [H _].
  exact (H eq_refl).
Defined.

Lemma lambda_handler_in_memory_step json fr event context subs log :
  ∃ subs' log',
    (lambda_handler json fr event context
       {| storage := InMemoryStorage subs; calls := log |}).2
    = {| storage := InMemoryStorage subs'; calls := log' |}
    ∧ (subs' = subs
       ∨ ∃ e, is_valid_email (Str.strip e) = true ∧ subs !! normalize e = None
              ∧ subs' = <[normalize e := new_subscriber fr]> subs).
Proof.
  destruct (event_email json event) as [e|] eqn:E.
  - rewrite (lambda_handler_in_memory _ _ _ _ _ _ _ E). case_bool_decide as Hk.
    + eexists _, _. split; [done|]. by left.
    + eexists _, _. split; [done|]. right. exists e. split; [|split; [|done]].
      * unfold event_email in E. destruct (event_body json event); [|done].
        by apply valid_email_of_Some in E as (d & _ & _ & Hv).
      * apply eq_None_not_Some. exact Hk.
  - destruct (lambda_handler_invalid json fr event context
                {| storage := InMemoryStorage subs; calls := log |} E) as (r & -> & _).
    eexists _, _. split; [done|]. by left.
Qed.

Lemma subscribe_newsletter_in_memory_step fr request subs log :
  ∃ subs' log',
    (subscribe_newsletter fr request
       {| storage := InMemoryStorage subs; calls := log |}).2
    = {| storage := InMemoryStorage subs'; calls := log' |}
    ∧ (subs' = subs
       ∨ ∃ e, is_valid_email (Str.strip e) = true ∧ subs !! normalize e = None
              ∧ subs' = <[normalize e := new_subscriber fr]> subs).
Proof.
  destruct (request_email request) as [e|] eqn:E.
  - rewrite (subscribe_newsletter_in_memory _ _ _ _ _ E). case_bool_decide as Hk.
    + eexists _, _. split; [done|]. by left.
    + eexists _, _. split; [done|]. right. exists e. split; [|split; [|done]].
      * unfold request_email in E. destruct (is_json request); [|done].
        destruct (get_json request); [|done].
        by apply valid_email_of_Some in E as (d & _ & _ & Hv).
      * apply eq_None_not_Some. exact Hk.
  - destruct (subscribe_newsletter_invalid fr request
                {| storage := InMemoryStorage subs; calls := log |} E) as (r & -> & _).
    eexists _, _. split; [done|]. by left.
Qed.

Lemma keys_wellformed_insert fr e subs :
  is_valid_email (Str.strip e) = true →
  keys_wellformed subs →
  keys_wellformed (<[normalize e := new_subscriber fr]> subs).
Proof.
  intros Hv Hs k Hk. destruct (decide (k = normalize e)) as [-> | Hne].
  - split; [by apply normalized_key_valid | apply normalize_fixed].
  - rewrite lookup_insert_ne in Hk by done. by apply Hs.
Qed.

(** X10. Whatever the request, an adapter on the volatile store removes
    and rewrites no record: the store afterwards contains the store
    before, holds at most one record more, and if all its keys were
    valid normalized emails they still are. *)
Theorem in_memory_requests_only_add (json : Json) (fr : Fresh) (request : Request)
    (event context : pyval) (subs : gmap string Subscriber) (log : list Call) :
  let w := {| storage := InMemoryStorage subs; calls := log |} in
  (∃ subs' log',
     (lambda_handler json fr event context w).2
     = {| storage := InMemoryStorage subs'; calls := log' |}
     ∧ subs ⊆ subs' ∧ (size subs' ≤ S (size subs))%nat
     ∧ (keys_wellformed subs → keys_wellformed subs'))
  ∧ (∃ subs' log',
     (subscribe_newsletter fr request w).2
     = {| storage := InMemoryStorage subs'; calls := log' |}
     ∧ subs ⊆ subs' ∧ (size subs' ≤ S (size subs))%nat
     ∧ (keys_wellformed subs → keys_wellformed subs')).
Proof.
  intros w. subst w. split.
  - destruct (lambda_handler_in_memory_step json fr event context subs log)
      as (subs' & log' & -> & [-> | (e & Hv & Hn & ->)]);
      eexists _, _; (split; [done|]).
    + split; [done|]. split; [lia | done].
    + split; [by apply insert_subseteq|].
      split; [by rewrite map_size_insert_None | by apply keys_wellformed_insert].
  - destruct (subscribe_newsletter_in_memory_step fr request subs log)
      as (subs' & log' & -> & [-> | (e & Hv & Hn & ->)]);
      eexists _, _; (split; [done|]).
    + split; [done|]. split; [lia | done].
    + split; [by apply insert_subseteq|].
      split; [by rewrite map_size_insert_None | by apply keys_wellformed_insert].
Qed.

(** X11. A process that starts on an empty volatile store and serves any
    sequence of events ends with a store whose keys are all valid
    normalized emails, with at most one record per event served. *)
Theorem serve_keeps_keys_wellformed (json : Json)
    (invocations : list (Fresh * pyval)) :
  ∃ subs log,
    serve json invocations memory_world
    = {| storage := InMemoryStorage subs; calls := log |}
    ∧ keys_wellformed subs
    ∧ (size subs ≤ length invocations)%nat.
Proof.
  assert (Hgen : ∀ subs log, keys_wellformed subs →
    ∃ subs' log',
      serve json invocations {| storage := InMemoryStorage subs; calls := log |}
      = {| storage := InMemoryStorage subs'; calls := log' |}
      ∧ keys_wellformed subs'
      ∧ (size subs' ≤ size subs + length invocations)%nat).
  { induction invocations as [|[fr event] rest IH]; intros subs log Hk.
    - exists subs, log. simpl. split; [done|]. split; [done | lia].
    - destruct (lambda_handler_in_memory_step json fr event PNone subs log)
        as (s1 & l1 & E & Hs1).
      assert (Hw : keys_wellformed s1 ∧ (size s1 ≤ S (size subs))%nat).
      { destruct Hs1 as [-> | (e & Hv & Hn & ->)]; [split; [done | lia]|].
        split; [by apply keys_wellformed_insert|].
        by rewrite map_size_insert_None. }
      destruct Hw as [Hw Hsz].
      destruct (IH s1 l1 Hw) as (s2 & l2 & E2 & Hk2 & Hsz2).
      exists s2, l2. unfold serve in *. simpl. rewrite E. split; [done|].
      split; [done|]. simpl. lia. }
  destruct (Hgen ∅ [] ) as (subs & log & E & Hk & Hsz).
  { intros k [x Hx]. by rewrite lookup_empty in Hx. }
  exists subs, log. split; [done|]. split; [done|].
  by rewrite map_size_empty in Hsz.
Qed.

(** ** The durable store *)

Lemma length_filter_filter {A} (P Q : A → Prop)
    `{!∀ x, Decision (P x), !∀ x, Decision (Q x)} (l : list A) :
  (length (filter P (filter Q l)) ≤ length (filter P l))%nat.
Proof.
  induction l as [|x l IH]; [done|].
  rewrite (filter_cons Q). destruct (decide (Q x)).
  - rewrite !(filter_cons P). destruct (decide (P x)); simpl; lia.
  - rewrite (filter_cons P). destruct (decide (P x)); simpl; lia.
Qed.

Lemma email_count_answered v t : email_count v (answered t) = email_count v t.
Proof. done. Qed.

Lemma email_count_written v fr e t :
  (email_count v (written fr e t)
   ≤ email_count v t + (if decide (normalize e = v) then 1 else 0))%nat
  ∧ (fresh_for fr t →
     email_count v (written fr e t)
     = (email_count v t + (if decide (normalize e = v) then 1 else 0))%nat).
Proof.
  unfold email_count, written. simpl. rewrite filter_app, length_app.
  assert (length (filter (λ i, item_email i = v) [new_item fr e])
          = if decide (normalize e = v) then 1%nat else 0%nat) as ->.
  { rewrite filter_cons. simpl. by destruct (decide (normalize e = v)). }
  split.
  - pose proof (length_filter_filter (λ i, item_email i = v)
                  (λ i, item_id i ≠ uuid4 fr) (items t)). lia.
  - intros Hf. by rewrite filter_fresh.
Qed.

Lemma total_size_app l1 l2 : total_size (l1 ++ l2) = (total_size l1 + total_size l2)%N.
Proof. induction l1 as [|i l1 IH]; simpl; [done|]. rewrite IH. lia. Qed.

Lemma one_page_before_written fr e t :
  fresh_for fr t → one_page (items (written fr e t)) → one_page (items t).
Proof.
  unfold one_page, written. cbn [items]. intros Hf. rewrite (filter_fresh fr t Hf).
  rewrite total_size_app. lia.
Qed.

(** X12. Adding and looking up go by the normalized email in both
    stores: after [add_subscriber] with one address, [is_subscribed] is
    true for every address with the same normalized form, and its answer
    for an address with another normalized form is the one it gave
    before (on the durable store: on a table that answers and that one
    scan request still covers after the insert, and for the second part
    when the new identifier is not yet in the table). *)
Theorem storage_round_trip (fr : Fresh) (a b : string)
    (subs : gmap string Subscriber) (t : Table) :
  (normalize a = normalize b →
     (InMemory.is_subscribed b (InMemory.add_subscriber fr a subs).2).1
     = Return true
     ∧ (healthy 2 t → one_page (items (written fr a t)) →
        (DynamoDB.is_subscribed b (DynamoDB.add_subscriber fr a t).2).1
        = Return true))
  ∧ (normalize a ≠ normalize b →
     (InMemory.is_subscribed b (InMemory.add_subscriber fr a subs).2).1
     = (InMemory.is_subscribed b subs).1
     ∧ (healthy 2 t → fresh_for fr t → one_page (items (written fr a t)) →
        (DynamoDB.is_subscribed b (DynamoDB.add_subscriber fr a t).2).1
        = (DynamoDB.is_subscribed b t).1)).
Proof.
  split; intros E.
  - split.
    + destruct (inmemory_add_then_subscribed fr a b subs E) as (r & Ha & Hi).
      rewrite Ha. cbn [snd]. by rewrite Hi.
    + intros Hh Hp.
      destruct (dynamodb_add_then_subscribed fr a b t E Hh Hp) as [Ha Hi].
      rewrite Ha. cbn [snd]. by rewrite Hi.
  - split.
    + unfold InMemory.is_subscribed, InMemory.add_subscriber. simpl.
      fold (normalize a) (normalize b). by rewrite lookup_insert_ne.
    + intros Hh Hf Hp. destruct (healthy_S 1 t Hh) as [Hnf Hh1].
      destruct (healthy_S 0 _ (healthy_written 1 fr a t Hh1)) as [Hnf1 _].
      rewrite dynamodb_add_subscriber_eq, Hnf. cbn [snd].
      rewrite !dynamodb_is_subscribed_eq, Hnf, Hnf1. cbn [fst negb andb].
      rewrite (page_count_one_page _ _ Hp).
      rewrite (page_count_one_page _ t (one_page_before_written fr a t Hf Hp)).
      destruct (email_count_written (normalize b) fr a t) as [_ Hc].
      rewrite (Hc Hf). rewrite decide_False by done. by rewrite Nat.add_0_r.
Qed.

Lemma storage_round_trip_witness :
  (DynamoDB.is_subscribed "FOO@bar.com "
     (DynamoDB.add_subscriber sample_fresh " foo@BAR.com" empty_table).2).1
  = Return true.
Proof.
  destruct (storage_round_trip sample_fresh " foo@BAR.com" "FOO@bar.com " ∅
              empty_table) as [H _].
  destruct (H eq_refl) as [_ Hd]. apply Hd; [apply Forall_nil_2|].
  unfold one_page. vm_compute. discriminate.
Defined.

(** X13. [DynamoDBStorage.add_subscriber] does not look for the email in
    the table: called twice with addresses of one normalized form, on a
    table that answers and with two new identifiers, it stores two items
    for that email. *)
Theorem dynamodb_add_twice_duplicates (fr1 fr2 : Fresh) (a b : string) (t : Table) :
  normalize a = normalize b →
  healthy 2 t → fresh_for fr1 t → fresh_for fr2 t → uuid4 fr1 ≠ uuid4 fr2 →
  ∃ t1 t2,
    DynamoDB.add_subscriber fr1 a t = (Return true, t1)
    ∧ DynamoDB.add_subscriber fr2 b t1 = (Return true, t2)
    ∧ email_count (normalize a) t2 = (email_count (normalize a) t + 2)%nat.
Proof.
  intros E Hh Hf1 Hf2 Hne. destruct (healthy_S 1 t Hh) as [Hnf Hh1].
  destruct (healthy_S 0 _ (healthy_written 1 fr1 a t Hh1)) as [Hnf1 _].
  exists (written fr1 a t), (written fr2 b (written fr1 a t)).
  rewrite !dynamodb_add_subscriber_eq, Hnf, Hnf1. split; [done|]. split; [done|].
  assert (Hf2' : fresh_for fr2 (written fr1 a t)).
  { unfold fresh_for, written. simpl. rewrite filter_fresh by done.
    apply Forall_app. split; [done|]. apply Forall_singleton. simpl. done. }
  destruct (email_count_written (normalize a) fr2 b (written fr1 a t)) as [_ H2].
  destruct (email_count_written (normalize a) fr1 a t) as [_ H1].
  rewrite (H2 Hf2'), (H1 Hf1), <- E. rewrite !decide_True by done. lia.
Qed.

Lemma dynamodb_add_twice_duplicates_witness :
  ∃ t1 t2,
    DynamoDB.add_subscriber sample_fresh "a@b.com" empty_table = (Return true, t1)
    ∧ DynamoDB.add_subscriber {| uuid4 := "other"; utcnow := "later" |} "A@B.com" t1
      = (Return true, t2)
    ∧ email_count "a@b.com" t2 = 2%nat.
Proof.
  destruct (dynamodb_add_twice_duplicates sample_fresh
              {| uuid4 := "other"; utcnow := "later" |} "a@b.com" "A@B.com"
              empty_table) as (t1 & t2 & H1 & H2 & H3).
  - reflexivity.
  - apply Forall_nil_2.
  - apply Forall_nil_2.
  - apply Forall_nil_2.
  - discriminate.
  - by exists t1, t2.
Defined.

(** ** The adapters on the durable store *)

Lemma durable_is_subscribed e name t log :
  call_is_subscribed e {| storage := DynamoDBStorage name t; calls := log |}
  = (Return (negb (failing t) && (0 <? page_count (normalize e) t)%nat),
     {| storage := DynamoDBStorage name (answered t);
        calls := log ++ [IsSubscribed e] |}).
Proof.
  unfold call_is_subscribed. simpl. by rewrite dynamodb_is_subscribed_eq.
Qed.

Lemma durable_add_subscriber fr e name t log :
  call_add_subscriber fr e {| storage := DynamoDBStorage name t; calls := log |}
  = if failing t then
      (Return false, {| storage := DynamoDBStorage name (answered t);
                        calls := log ++ [AddSubscriber e] |})
    else
      (Return true, {| storage := DynamoDBStorage name (written fr e t);
                       calls := log ++ [AddSubscriber e] |}).
Proof.
  unfold call_add_subscriber. simpl. rewrite dynamodb_add_subscriber_eq.
  by destruct (failing t).
Qed.

Lemma lambda_handler_durable json fr event context name t log e :
  event_email json event = Some e →
  lambda_handler json fr event context
    {| storage := DynamoDBStorage name t; calls := log |}
  = if negb (failing t) && (0 <? page_count (normalize e) t)%nat then
      (Return (format_response json (success_payload
         "You are already subscribed to the newsletter") 200),
       {| storage := DynamoDBStorage name (answered t);
          calls := log ++ [IsSubscribed e] |})
    else if failing (answered t) then
      (Return (format_response json (error_payload
         "Failed to process subscription") 500),
       {| storage := DynamoDBStorage name (answered (answered t));
          calls := log ++ [IsSubscribed e; AddSubscriber e] |})
    else
      (Return (format_response json (success_payload
         "Successfully subscribed to the newsletter") 201),
       {| storage := DynamoDBStorage name (written fr e (answered t));
          calls := log ++ [IsSubscribed e; AddSubscriber e] |}).
Proof.
  intros H. rewrite (lambda_handler_valid _ _ _ _ _ _ H).
  rewrite durable_is_subscribed.
  destruct (negb (failing t) && (0 <? page_count (normalize e) t)%nat); [done|].
  rewrite durable_add_subscriber, <- app_assoc.
  by destruct (failing (answered t)).
Qed.

(** X14. On the durable store, two events in sequence whose valid emails
    have one normalized form, on a table that answers its three requests,
    held no item for that email and is still covered by one scan request
    after the insert, are answered 201 and then 200, and the table then
    holds exactly one item for the email. *)
Theorem durable_subscribe_twice (json : Json) (fr1 fr2 : Fresh)
    (ev1 ev2 ctx1 ctx2 : pyval) (e1 e2 name : string) (t : Table)
    (log : list Call) :
  normalize e1 = normalize e2 →
  event_email json ev1 = Some e1 → event_email json ev2 = Some e2 →
  healthy 3 t → email_count (normalize e1) t = 0%nat →
  one_page (items (written fr1 e1 (answered t))) →
  ∃ t1 t2 log1 log2,
    lambda_handler json fr1 ev1 ctx1
      {| storage := DynamoDBStorage name t; calls := log |}
    = (Return {| statusCode := 201;
                  headers := [("Content-Type", "application/json");
                              ("Access-Control-Allow-Origin", "*")];
                  body := json_dumps json
                            (success_payload "Successfully subscribed to the newsletter") |},
       {| storage := DynamoDBStorage name t1; calls := log1 |})
    ∧ lambda_handler json fr2 ev2 ctx2
        {| storage := DynamoDBStorage name t1; calls := log1 |}
      = (Return {| statusCode := 200;
                    headers := [("Content-Type", "application/json");
                                ("Access-Control-Allow-Origin", "*")];
                    body := json_dumps json
                              (success_payload "You are already subscribed to the newsletter") |},
         {| storage := DynamoDBStorage name t2; calls := log2 |})
    ∧ email_count (normalize e1) t2 = 1%nat.
Proof.
  intros E H1 H2 Hh Hc Hp.
  assert (Hc0 : page_count (normalize e1) t = 0%nat).
  { pose proof (page_count_le (normalize e1) t). lia. }
  destruct (healthy_S 2 t Hh) as [Hf0 Hh2].
  destruct (healthy_S 1 _ Hh2) as [Hf1 Hh1].
  destruct (healthy_S 0 _ (healthy_written 1 fr1 e1 _ Hh1)) as [Hf2 _].
  assert (Hc1 : email_count (normalize e1) (written fr1 e1 (answered t)) = 1%nat).
  { destruct (email_count_written (normalize e1) fr1 e1 (answered t)) as [Hle _].
    rewrite email_count_answered, Hc, decide_True in Hle by done.
    assert (1 ≤ email_count (normalize e1) (written fr1 e1 (answered t)))%nat; [|lia].
    unfold email_count, written. simpl. rewrite filter_app, length_app.
    rewrite (filter_cons_True _ (new_item fr1 e1)) by done. simpl. lia. }
  eexists _, _, _, _. split; [|split].
  - rewrite (lambda_handler_durable _ _ _ _ _ _ _ _ H1), Hf0, Hc0, Hf1. done.
  - rewrite (lambda_handler_durable _ _ _ _ _ _ _ _ H2), Hf2, <- E.
    rewrite (page_count_one_page _ _ Hp), Hc1. done.
  - done.
Qed.

Lemma durable_subscribe_twice_witness :
  let ev := PDict [("email", PStr "a@b.com")] in
  ∃ w1 w2,
    lambda_handler strict_json sample_fresh ev PNone
      {| storage := DynamoDBStorage "newsletter_subscribers" empty_table;
         calls := [] |}
    = (Return {| statusCode := 201;
                  headers := [("Content-Type", "application/json");
                              ("Access-Control-Allow-Origin", "*")];
                  body := json_dumps strict_json
                            (success_payload "Successfully subscribed to the newsletter") |}, w1)
    ∧ lambda_handler strict_json sample_fresh ev PNone w1
      = (Return {| statusCode := 200;
                    headers := [("Content-Type", "application/json");
                                ("Access-Control-Allow-Origin", "*")];
                    body := json_dumps strict_json
                              (success_payload "You are already subscribed to the newsletter") |}, w2).
Proof.
  intros ev.
  destruct (durable_subscribe_twice strict_json sample_fresh sample_fresh ev ev
              PNone PNone "a@b.com" "a@b.com" "newsletter_subscribers"
              empty_table [] eq_refl eq_refl eq_refl)
    as (t1 & t2 & log1 & log2 & H1 & H2 & _).
  - apply Forall_nil_2.
  - reflexivity.
  - unfold one_page. vm_compute. discriminate.
  - eexists _, _. split; [exact H1 | exact H2].
Defined.

(** X15. While the table answers and one scan request covers it, the
    event adapter keeps emails unique in the durable store: if no email
    had more than one item before an event is handled, none has
    afterwards. *)
Theorem durable_uniqueness_preserved (json : Json) (fr : Fresh)
    (event context : pyval) (name : string) (t : Table) (log : list Call) :
  healthy 2 t → one_page (items t) →
  (∀ v, email_count v t ≤ 1)%nat →
  ∃ r t' log',
    lambda_handler json fr event context
      {| storage := DynamoDBStorage name t; calls := log |}
    = (Return r, {| storage := DynamoDBStorage name t'; calls := log' |})
    ∧ (∀ v, email_count v t' ≤ 1)%nat.
Proof.
  intros Hh Hp Hu. destruct (healthy_S 1 t Hh) as [Hf0 Hh1].
  destruct (healthy_S 0 _ Hh1) as [Hf1 _].
  destruct (event_email json event) as [e|] eqn:E.
  - rewrite (lambda_handler_durable _ _ _ _ _ _ _ _ E), Hf0, Hf1. simpl.
    rewrite (page_count_one_page _ _ Hp).
    destruct (0 <? email_count (normalize e) t)%nat eqn:Hc.
    + eexists _, _, _. split; [done|]. intros v. by rewrite email_count_answered.
    + eexists _, _, _. split; [done|]. intros v.
      destruct (email_count_written v fr e (answered t)) as [Hle _].
      rewrite email_count_answered in Hle. apply Nat.ltb_ge in Hc.
      destruct (decide (normalize e = v)) as [<- | _].
      * lia.
      * pose proof (Hu v). lia.
  - destruct (lambda_handler_invalid json fr event context
                {| storage := DynamoDBStorage name t; calls := log |} E)
      as (r & -> & _).
    eexists _, _, _. split; [done|]. done.
Qed.

Lemma durable_uniqueness_preserved_witness :
  ∃ r t' log',
    lambda_handler strict_json sample_fresh (PDict [("email", PStr "a@b.com")]) PNone
      {| storage := DynamoDBStorage "newsletter_subscribers" empty_table;
         calls := [] |}
    = (Return r, {| storage := DynamoDBStorage "newsletter_subscribers" t';
                    calls := log' |})
    ∧ (email_count "a@b.com" t' ≤ 1)%nat.
Proof.
  destruct (durable_uniqueness_preserved strict_json sample_fresh
              (PDict [("email", PStr "a@b.com")]) PNone
              "newsletter_subscribers" empty_table [])
    as (r & t' & log' & H & Hu).
  - apply Forall_nil_2.
  - unfold one_page. vm_compute. discriminate.
  - intros v. apply Nat.le_0_l.
  - exists r, t', log'. split; [exact H | apply Hu].
Defined.

(** X16. A failing scan hides existing subscribers: when the scan made
    by [is_subscribed] fails and the insert that follows succeeds, a
    valid event is answered 201 and one more item is stored for its
    email, whether or not the table already held one (here with a new
    identifier). *)
Theorem failed_scan_admits_duplicate (json : Json) (fr : Fresh)
    (event context : pyval) (e name : string) (t : Table) (log : list Call) :
  event_email json event = Some e →
  failing t = true → failing (answered t) = false → fresh_for fr t →
  ∃ t',
    lambda_handler json fr event context
      {| storage := DynamoDBStorage name t; calls := log |}
    = (Return {| statusCode := 201;
                  headers := [("Content-Type", "application/json");
                              ("Access-Control-Allow-Origin", "*")];
                  body := json_dumps json
                            (success_payload "Successfully subscribed to the newsletter") |},
       {| storage := DynamoDBStorage name t';
          calls := log ++ [IsSubscribed e; AddSubscriber e] |})
    ∧ email_count (normalize e) t' = S (email_count (normalize e) t).
Proof.
  intros E Hf0 Hf1 Hfr. exists (written fr e (answered t)).
  rewrite (lambda_handler_durable _ _ _ _ _ _ _ _ E), Hf0, Hf1. split; [done|].
  destruct (email_count_written (normalize e) fr e (answered t)) as [_ Hc].
  rewrite (Hc Hfr), email_count_answered, decide_True by done. lia.
Qed.

Lemma failed_scan_admits_duplicate_witness :
  let held := {| item_id := "1"; item_email := "a@b.com";
                 item_subscribed_at := "2023-12-31T00:00:00";
                 item_status := "active" |} in
  let t := {| items := [held]; pending := [Some (OtherException "ClientError")] |} in
  ∃ t',
    (lambda_handler strict_json sample_fresh (PDict [("email", PStr "a@b.com")])
       PNone {| storage := DynamoDBStorage "newsletter_subscribers" t;
                calls := [] |}).2
    = {| storage := DynamoDBStorage "newsletter_subscribers" t';
         calls := [IsSubscribed "a@b.com"; AddSubscriber "a@b.com"] |}
    ∧ email_count "a@b.com" t' = 2%nat.
Proof.
  intros held t.
  destruct (failed_scan_admits_duplicate strict_json sample_fresh
              (PDict [("email", PStr "a@b.com")]) PNone "a@b.com"
              "newsletter_subscribers" t [] eq_refl eq_refl eq_refl)
    as (t' & H & Hc).
  - apply Forall_singleton. discriminate.
  - exists t'. rewrite H. split; [done | exact Hc].
Defined.

(** X17. The event adapter takes nothing out of the durable store: with
    an identifier that is new to the table, the items after an event are
    the items before, followed, exactly when the answer is 201, by one
    active item that carries the normalized email, the identifier and
    the time stamp. *)
Theorem durable_requests_only_add (json : Json) (fr : Fresh)
    (event context : pyval) (name : string) (t : Table) (log : list Call) :
  fresh_for fr t →
  ∃ r t' log',
    lambda_handler json fr event context
      {| storage := DynamoDBStorage name t; calls := log |}
    = (Return r, {| storage := DynamoDBStorage name t'; calls := log' |})
    ∧ (statusCode r ≠ 201%Z → items t' = items t)
    ∧ (statusCode r = 201%Z →
       ∃ e, event_email json event = Some e
            ∧ items t' = (items t ++ [new_item fr e])%list).
Proof.
  intros Hfr. destruct (event_email json event) as [e|] eqn:E.
  - rewrite (lambda_handler_durable _ _ _ _ _ _ _ _ E).
    destruct (negb (failing t) && (0 <? page_count (normalize e) t)%nat).
    { eexists _, _, _. split; [done|]. split; [done|]. done. }
    destruct (failing (answered t)).
    { eexists _, _, _. split; [done|]. split; [done|]. done. }
    eexists _, _, _. split; [done|]. split; [done|]. intros _. exists e.
    split; [done|]. simpl. by rewrite (filter_fresh fr t Hfr).
  - destruct (lambda_handler_invalid json fr event context
                {| storage := DynamoDBStorage name t; calls := log |} E)
      as (r & -> & Ht & Hf).
    eexists _, _, _. split; [done|]. split; [done|]. intros Hs.
    destruct (envelope_fault json event).
    + rewrite (Ht eq_refl) in Hs. done.
    + destruct (Hf eq_refl) as (msg & ->). done.
Qed.

Lemma durable_requests_only_add_witness :
  ∃ r t' log',
    lambda_handler strict_json sample_fresh (PDict [("email", PStr "a@b.com")]) PNone
      {| storage := DynamoDBStorage "newsletter_subscribers" empty_table;
         calls := [] |}
    = (Return r, {| storage := DynamoDBStorage "newsletter_subscribers" t';
                    calls := log' |})
    ∧ statusCode r = 201%Z
    ∧ items t' = [new_item sample_fresh "a@b.com"].
Proof.
  destruct (durable_requests_only_add strict_json sample_fresh
              (PDict [("email", PStr "a@b.com")]) PNone
              "newsletter_subscribers" empty_table [] (Forall_nil_2 _))
    as (r & t' & log' & H & _ & Hadd).
  assert (Hs : statusCode r = 201%Z).
  { vm_compute in H. by injection H as <- _. }
  destruct (Hadd Hs) as (e & He & Hi). injection He as <-.
  exists r, t', log'. split; [exact H|]. split; [exact Hs | exact Hi].
Defined.

(** ** The durable store beyond one page *)

Lemma page_count_full_written v fr e t :
  (page_limit < total_size (items t))%N → fresh_for fr t →
  page_count v (written fr e t) = page_count v t.
Proof.
  intros Hfull Hf. unfold page_count, written, first_page. cbn [items].
  rewrite (filter_fresh fr t Hf). by rewrite first_page_from_full.
Qed.

Lemma fresh_for_written fr fr' e t :
  fresh_for fr t → fresh_for fr' t → uuid4 fr' ≠ uuid4 fr →
  fresh_for fr (written fr' e t).
Proof.
  intros Hf Hf' Hne. unfold fresh_for, written. cbn [items].
  rewrite (filter_fresh fr' t Hf'). apply Forall_app. split; [done|].
  by apply Forall_singleton.
Qed.

Lemma crowd_is_full n :
  (page_limit < 51 * N.of_nat n)%N → (page_limit < total_size (items (crowd n)))%N.
Proof.
  intros Hn. unfold crowd. cbn [items].
  pose proof (total_size_other_subscribers (seq 0 n)) as H.
  rewrite length_seq in H. lia.
Qed.

Lemma crowd_page_count n v :
  (∀ k, item_email (other_subscriber k) ≠ v) → page_count v (crowd n) = 0%nat.
Proof.
  intros Hv. unfold page_count, first_page, crowd. cbn [items].
  destruct (first_page_from_prefix (other_subscriber <$> seq 0 n) page_limit)
    as (rest & E).
  rewrite filter_email_none; [done|]. apply Forall_forall. intros i Hi.
  assert (Hi' : i ∈ other_subscriber <$> seq 0 n).
  { rewrite E. apply elem_of_app. by left. }
  apply list_elem_of_fmap in Hi' as (k & -> & _). apply Hv.
Qed.

(** X21. [is_subscribed] reads one page of the table only: on a table
    that answers every request but is larger than the page of one scan,
    with nothing for the email on that page, two events in sequence with
    the same valid email are both answered 201, and each stores an
    item (the new items being put after the page, with two new
    identifiers). *)
Theorem scan_page_admits_duplicate (json : Json) (fr1 fr2 : Fresh)
    (ev1 ev2 ctx1 ctx2 : pyval) (e1 e2 name : string) (t : Table)
    (log : list Call) :
  normalize e1 = normalize e2 →
  event_email json ev1 = Some e1 → event_email json ev2 = Some e2 →
  healthy 4 t →
  (page_limit < total_size (items t))%N →
  page_count (normalize e1) t = 0%nat →
  fresh_for fr1 t → fresh_for fr2 t → uuid4 fr1 ≠ uuid4 fr2 →
  ∃ r1 r2 t1 t2 log1 log2,
    lambda_handler json fr1 ev1 ctx1
      {| storage := DynamoDBStorage name t; calls := log |}
    = (Return r1, {| storage := DynamoDBStorage name t1; calls := log1 |})
    ∧ statusCode r1 = 201%Z
    ∧ lambda_handler json fr2 ev2 ctx2
        {| storage := DynamoDBStorage name t1; calls := log1 |}
      = (Return r2, {| storage := DynamoDBStorage name t2; calls := log2 |})
    ∧ statusCode r2 = 201%Z
    ∧ items t2 = (items t ++ [new_item fr1 e1; new_item fr2 e2])%list
    ∧ email_count (normalize e1) t2 = (email_count (normalize e1) t + 2)%nat.
Proof.
  intros E H1 H2 Hh Hfull Hc Hf1 Hf2 Hne.
  destruct (healthy_S 3 t Hh) as [F0 Hh3].
  destruct (healthy_S 2 _ Hh3) as [F1 Hh2].
  destruct (healthy_S 1 _ (healthy_written 2 fr1 e1 _ Hh2)) as [F2 Hh1].
  destruct (healthy_S 0 _ Hh1) as [F3 _].
  assert (Hc1 : page_count (normalize e2) (written fr1 e1 (answered t)) = 0%nat).
  { rewrite page_count_full_written by done. by rewrite <- E. }
  assert (Hf2' : fresh_for fr2 (answered (written fr1 e1 (answered t)))).
  { apply (fresh_for_written fr2 fr1 e1 (answered t)); done. }
  eexists _, _, _, _, _, _. split; [|split; [|split; [|split; [|split]]]].
  - rewrite (lambda_handler_durable _ _ _ _ _ _ _ _ H1), F0, Hc, F1. reflexivity.
  - reflexivity.
  - rewrite (lambda_handler_durable _ _ _ _ _ _ _ _ H2), F2, Hc1, F3. reflexivity.
  - reflexivity.
  - cbn [items written answered].
    rewrite (filter_fresh fr1 t Hf1).
    pose proof (filter_fresh fr2 _ Hf2') as Hx. cbn [items written answered] in Hx.
    rewrite (filter_fresh fr1 t Hf1) in Hx. rewrite Hx.
    by rewrite <- app_assoc.
  - destruct (email_count_written (normalize e1) fr2 e2
                (answered (written fr1 e1 (answered t)))) as [_ Hw2].
    destruct (email_count_written (normalize e1) fr1 e1 (answered t)) as [_ Hw1].
    rewrite (Hw2 Hf2'), email_count_answered, (Hw1 Hf1), email_count_answered.
    rewrite <- E, !decide_True by done. lia.
Qed.

Lemma scan_page_admits_duplicate_witness :
  let ev := PDict [("email", PStr "a@b.com")] in
  let later := {| uuid4 := "0b7d4e52-91aa-4f0e-8c3d-5e6f7a8b9c0d";
                  utcnow := "2024-01-01T00:00:05" |} in
  ∃ r1 r2 w1 w2,
    lambda_handler strict_json sample_fresh ev PNone
      {| storage := DynamoDBStorage "newsletter_subscribers" crowded_table;
         calls := [] |}
    = (Return r1, w1)
    ∧ statusCode r1 = 201%Z
    ∧ lambda_handler strict_json later ev PNone w1 = (Return r2, w2)
    ∧ statusCode r2 = 201%Z.
Proof.
  intros ev later.
  destruct (scan_page_admits_duplicate strict_json sample_fresh later ev ev
              PNone PNone "a@b.com" "a@b.com" "newsletter_subscribers"
              crowded_table [] eq_refl eq_refl eq_refl)
    as (r1 & r2 & t1 & t2 & log1 & log2 & H1 & S1 & H2 & S2 & _).
  - apply Forall_nil_2.
  - apply crowd_is_full. rewrite N2Nat.id. reflexivity.
  - apply crowd_page_count. intros k. unfold other_subscriber. cbn [item_email].
    discriminate.
  - apply sample_fresh_for_crowd.
  - apply Forall_forall. intros i Hi. unfold crowded_table, crowd in Hi.
    cbn [items] in Hi. apply list_elem_of_fmap in Hi as (k & -> & _).
    unfold other_subscriber. cbn [item_id uuid4]. discriminate.
  - discriminate.
  - eexists _, _, _, _. split; [exact H1|]. split; [exact S1|].
    split; [exact H2 | exact S2].
Defined.

(** ** The HTTP view without a response *)

(** X18. The HTTP view ends without a response exactly when the request
    passes validation, [is_subscribed] answers false and
    [add_subscriber] then returns false. *)
Theorem view_returns_None_iff (fr : Fresh) (request : Request) (w : World) :
  (subscribe_newsletter fr request w).1 = Return None
  ↔ ∃ e st st', request_email request = Some e
      ∧ is_subscribed e (storage w) = (Return false, st)
      ∧ add_subscriber fr e st = (Return false, st').
Proof.
  destruct (request_email request) as [e|] eqn:E.
  - rewrite (subscribe_newsletter_valid _ _ _ _ E).
    destruct (calls_after_is_subscribed e w) as (b & st & Hs & ->).
    destruct b.
    + split; [done|]. intros (e' & st1 & st2 & [= <-] & Hs' & _). congruence.
    + match goal with |- context [call_add_subscriber fr e ?w1] =>
        destruct (calls_after_add_subscriber fr e w1) as (b' & st' & Ha & ->)
      end. simpl in Ha.
      destruct b'.
      * split; [done|]. intros (e' & st1 & st2 & [= <-] & Hs' & Ha'). congruence.
      * split; [|done]. intros _. by exists e, st, st'.
  - destruct (subscribe_newsletter_invalid fr request w E)
      as (r & -> & [(msg & status & -> & _) | (ex & _ & _ & ->)]).
    + split; [done|]. by intros (e' & ? & ? & ? & _).
    + split; [done|]. by intros (e' & ? & ? & ? & _).
Qed.

(** ** The envelope of an event *)

(** X20. When the event has a [body] field, the event adapter looks at
    nothing else in the event: two events with the same [body] get the
    same answer and leave the same state, whatever their other fields
    (an [email] beside the [body] is ignored). *)
Theorem body_field_decides (json : Json) (fr : Fresh)
    (d d' : list (string * pyval)) (body context context' : pyval) (w : World) :
  dict_lookup "body" d = Some body →
  dict_lookup "body" d' = Some body →
  lambda_handler json fr (PDict d) context w
  = lambda_handler json fr (PDict d') context' w.
Proof.
  intros H H'. unfold lambda_handler, py_contains, py_getitem, dict_contains.
  by rewrite H, H'.
Qed.

Lemma body_field_decides_witness :
  lambda_handler strict_json sample_fresh
    (PDict [("email", PStr "a@b.com"); ("body", PNone)]) PNone memory_world
  = lambda_handler strict_json sample_fresh (PDict [("body", PNone)]) PNone
      memory_world.
Proof.
  apply (body_field_decides strict_json sample_fresh
           [("email", PStr "a@b.com"); ("body", PNone)] [("body", PNone)] PNone);
    reflexivity.
Defined.

